(** * RNA-seq read alignment: transcriptome aligner and seed finder

    Shallow embedding of the alignment functions of the notebook
    [Algorithm.ipynb] (the cell that builds the transcriptome,
    find_alignment, align_to_isoform, align_to_transcriptome,
    replace_base_at_index, find_seeds) and of the seed filter
    [check_seeds] of the second notebook.

    Python integers are [Z], lengths and loop counters that only count up
    from zero are [nat], strings are lists of characters, tuples are
    tuples.  A Python exception is an explicit outcome.  The seed count
    [k] of find_seeds is a [nat]: with a negative [k] the Python recursion
    has no base case. *)

From Stdlib Require Import ZArith String Ascii Bool Arith Lia List Sorted.
Import ListNotations.

Local Open Scope Z_scope.

(** ** Python values and exceptions *)

(** What a call can do: return a value, raise [IndexError] (a list or
    string indexed out of range), or never return ([Diverges]: a loop or a
    recursion that does not end, which Python cuts off at its recursion
    limit; here it is what is left when a call budget is used up). *)
Inductive outcome (A : Type) : Type :=
| Ok (a : A)
| IndexError
| Diverges.

Arguments Ok {A} a.
Arguments IndexError {A}.
Arguments Diverges {A}.

Definition bind {A B : Type} (c : outcome A) (k : A -> outcome B) : outcome B :=
  match c with
  | Ok a => k a
  | IndexError => IndexError
  | Diverges => Diverges
  end.

Notation "x <- c ;; k" := (bind c (fun x => k))
  (at level 61, c at next level, right associativity).
Notation "' p <- c ;; k" := (bind c (fun x => let 'p := x in k))
  (at level 61, p pattern, c at next level, right associativity).

Definition str : Type := list ascii.

(** A string literal. *)
Definition chars (x : string) : str := list_ascii_of_string x.

(** [l[i]] for a Python list: a negative index counts from the end, an
    index outside [-len, len) raises. *)
Definition py_index {A : Type} (l : list A) (i : Z) : option A :=
  let n := Z.of_nat (length l) in
  if 0 <=? i then nth_error l (Z.to_nat i)
  else if - n <=? i then nth_error l (Z.to_nat (n + i))
  else None.

Definition index {A : Type} (l : list A) (i : Z) : outcome A :=
  match py_index l i with
  | Some a => Ok a
  | None => IndexError
  end.

(** [range(n)]: empty when [n <= 0]. *)
Definition range (n : Z) : list nat := seq 0 (Z.to_nat n).

(** [range(lo, hi)] over integers. *)
Definition range2 (lo hi : Z) : list Z :=
  map (fun d => lo + Z.of_nat d) (seq 0 (Z.to_nat (hi - lo))).

(** A slice bound brought into [0, len]: negative bounds count from the
    end, bounds past either end are clipped. *)
Definition clip (n : nat) (i : Z) : nat :=
  if i <? 0 then Z.to_nat (Z.of_nat n + i) else Nat.min n (Z.to_nat i).

(** [l[:i]] and [l[i:]]. *)
Definition slice_to {A : Type} (l : list A) (i : Z) : list A :=
  firstn (clip (length l) i) l.
Definition slice_from {A : Type} (l : list A) (i : Z) : list A :=
  skipn (clip (length l) i) l.

(** [l[a:b]]. *)
Definition slice {A : Type} (l : list A) (a b : Z) : list A :=
  firstn (clip (length l) b - clip (length l) a) (skipn (clip (length l) a) l).

(** ** Transcriptome aligner *)

Module Transcriptome.

(** One row of an isoform's prefix-length table, as the notebook builds it:
    [(total_len, ex.start, ex.end - ex.start)]. *)
Definition exon_row : Type := Z * Z * Z.

(** An alignment piece [(read_start, reference_start, length)]. *)
Definition piece : Type := Z * Z * Z.
Definition alignment : Type := list piece.

Definition read_start (p : piece) : Z := fst (fst p).
Definition reference_start (p : piece) : Z := snd (fst p).
Definition piece_length (p : piece) : Z := snd p.

(** The pair returned by the aligners: [(-1, float("inf"))] or
    [(alignment, mismatches)]. *)
Inductive match_result : Type :=
| NoMatch
| Found (a : alignment) (mismatches : nat).

(** [transcriptome[gene][iso] = [isoform, exons]]; a dict iterates in
    insertion order, so each level is an association list. *)
Definition entry : Type := str * list exon_row.
Definition transcriptome : Type := list (string * list (string * entry)).

(** The gene records of the annotation: the notebook reads [ex.start] and
    [ex.end] of an exon, [iso.exons] of an isoform and [gene.isoforms] of
    a gene. *)
Record Exon : Type := { exon_id : string; exon_start : Z; exon_end : Z }.
Record Isoform : Type := { isoform_id : string; isoform_exons : list Exon }.
Record Gene : Type := { gene_id : string; gene_isoforms : list Isoform }.

(** The [for ex in iso.exons] loop of the cell that builds
    [known_transcriptome]. *)
Fixpoint add_exons (genome_sequence : str) (exons_left : list Exon)
    (isoform : str) (exons : list exon_row) (total_len : Z) : entry :=
  match exons_left with
  | [] => (isoform, exons)
  | ex :: rest =>
      add_exons genome_sequence rest
        (isoform ++ slice genome_sequence (exon_start ex) (exon_end ex))
        (exons ++ [(total_len, exon_start ex, exon_end ex - exon_start ex)])
        (total_len + (exon_end ex - exon_start ex))
  end.

Definition build_entry (genome_sequence : str) (iso : Isoform) : entry :=
  add_exons genome_sequence (isoform_exons iso) [] [] 0.

(** The genes in the order of the dict that holds them, each isoform of a
    gene once. *)
Definition build_transcriptome (genome_sequence : str) (genes : list Gene)
    : transcriptome :=
  map (fun gene =>
         (gene_id gene,
          map (fun iso => (isoform_id iso, build_entry genome_sequence iso))
              (gene_isoforms gene)))
      genes.

(** An exon with [end > start] that lies in the genome. *)
Definition exon_in (genome_sequence : str) (ex : Exon) : Prop :=
  0 <= exon_start ex /\ exon_start ex < exon_end ex
  /\ exon_end ex <= Z.of_nat (length genome_sequence).

(** The inner function of find_alignment.  [calls] bounds the depth of the
    recursion. *)
Fixpoint find_start_location (calls : nat) (exons : list exon_row)
    (align_start lo hi : Z) : outcome Z :=
  match calls with
  | O => Diverges
  | S calls' =>
      let mid := (lo + hi) / 2 in
      '(off, _, len) <- index exons mid ;;
      if (off <=? align_start) && (align_start <? off + len) then Ok mid
      else if off + len <=? align_start
           then find_start_location calls' exons align_start (mid + 1) hi
           else find_start_location calls' exons align_start lo (mid - 1)
  end.

(** The [while read_len > 0] loop of find_alignment.  [left] is
    [len(exons) - idx]: every round adds one to [idx], and once nothing is
    left [exons[idx]] is out of range (see [index_past_the_rows]).  [last]
    is [algn[-1]]. *)
Fixpoint extend (left : nat) (exons : list exon_row) (idx read_len : Z)
    (algn : alignment) (last : piece) : outcome alignment :=
  if read_len >? 0 then
    match left with
    | O => IndexError
    | S left' =>
        let idx := idx + 1 in
        '(_, gstart, len) <- index exons idx ;;
        let p := (read_start last + piece_length last, gstart,
                  if read_len <=? len then read_len else len) in
        extend left' exons idx (read_len - len) (algn ++ [p]) p
    end
  else Ok algn.

(** Depth allowed to the binary search: on any table the search returns
    or raises within [len(exons) + 2] calls or never does (see
    [find_start_location_more_calls]). *)
Definition search_depth (exons : list exon_row) : nat := S (S (length exons)).

Definition find_alignment (read_len align_start : Z) (exons : list exon_row)
    : outcome alignment :=
  idx <- find_start_location (search_depth exons) exons align_start
           0 (Z.of_nat (length exons)) ;;
  '(off, gstart, len) <- index exons idx ;;
  let first := (0, gstart + (align_start - off),
                if read_len + (align_start - off) <=? len then read_len
                else len - (align_start - off)) in
  let read_len := read_len - (len - (align_start - off)) in
  extend (Z.to_nat (Z.of_nat (length exons) - idx)) exons idx read_len
         [first] first.

(** Sum of the lengths of the pieces. *)
Definition total_length (a : alignment) : Z :=
  fold_right (fun p acc => piece_length p + acc) 0 a.

(** The pieces tile the read from position [start] on, with no gap. *)
Fixpoint chained (start : Z) (a : alignment) : Prop :=
  match a with
  | [] => True
  | p :: a' => read_start p = start /\ chained (start + piece_length p) a'
  end.

(** Number of positions at which [read] differs from the text it is laid
    over (the text from some offset on). *)
Fixpoint mismatch_count (read text : str) : nat :=
  match read, text with
  | c :: read', d :: text' =>
      ((if Ascii.eqb d c then 0 else 1) + mismatch_count read' text')%nat
  | _, _ => 0%nat
  end.

(** Mismatches of [read] laid over [isoform] at offset [i]. *)
Definition count_at (read isoform : str) (i : nat) : nat :=
  mismatch_count read (skipn i isoform).

(** [read] fits in [isoform] at offset [i] with exactly [m] mismatches. *)
Definition occurs_at (read isoform : str) (i m : nat) : Prop :=
  (i + length read <= length isoform)%nat /\ count_at read isoform i = m.

(** The isoforms in the order the two nested loops visit them. *)
Definition isoforms_of (t : transcriptome) : list entry :=
  flat_map (fun gene => map snd (snd gene)) t.

(** A prefix-length table as the notebook builds it from exons with
    [end > start]: every row starts where the one before ends. *)
Fixpoint table_from (off : Z) (exons : list exon_row) : Prop :=
  match exons with
  | [] => True
  | (o, _, len) :: rest => o = off /\ 0 < len /\ table_from (off + len) rest
  end.

Definition table_length (exons : list exon_row) : Z :=
  fold_right (fun r acc => snd r + acc) 0 exons.

(** Piece [p] of the alignment of the window that starts at offset [pos]
    of the isoform lies in one exon row, and that row carries it to the
    genome: its reference start is the genome start of the row plus the
    offset of the piece in the row. *)
Definition carried_by (exons : list exon_row) (pos : Z) (p : piece) : Prop :=
  exists o g len,
    In (o, g, len) exons
    /\ o <= pos + read_start p
    /\ pos + read_start p + piece_length p <= o + len
    /\ reference_start p = g + (pos + read_start p - o).

(** Row [(o, g, len)] of the table says where the symbols [o .. o + len)
    of the isoform come from. *)
Definition row_spells (genome_sequence isoform : str) (r : exon_row) : Prop :=
  let '(o, g, len) := r in
  0 <= o /\ 0 <= g
  /\ forall d, 0 <= d < len ->
       nth_error isoform (Z.to_nat (o + d))
       = nth_error genome_sequence (Z.to_nat (g + d)).

(** An entry of a transcriptome built by the notebook: an isoform has at
    least one exon, the table is a prefix-length table from 0, and the
    isoform string is as long as its exons. *)
Definition well_formed (e : entry) : Prop :=
  snd e <> [] /\ table_from 0 (snd e)
  /\ Z.of_nat (length (fst e)) = table_length (snd e).

Section Aligner.

(** The mismatch ceiling is defined outside the two notebooks. *)
Variable MAX_NUM_MISMATCHES : nat.

(** The [while j < len(read)] loop at offset [i]; [rest] is [read[j:]].
    Returns [(j, mismatches)] as they are when the loop is left. *)
Fixpoint compare_at (isoform : str) (i : nat) (rest : str) (j mismatches : nat)
    : outcome (nat * nat) :=
  match rest with
  | [] => Ok (j, mismatches)
  | c :: rest' =>
      match nth_error isoform (i + j) with
      | None => IndexError
      | Some d =>
          let mismatches := if Ascii.eqb d c then mismatches else S mismatches in
          if (MAX_NUM_MISMATCHES <? mismatches)%nat then Ok (j, mismatches)
          else compare_at isoform i rest' (S j) mismatches
      end
  end.

(** [mismatches < match[1]] where [match[1]] starts as [float("inf")]. *)
Definition better (mismatches : nat) (best : option (nat * nat)) : bool :=
  match best with
  | None => true
  | Some (_, m) => (mismatches <? m)%nat
  end.

(** The [for i in range(...)] loop; [best] is [match], [None] standing for
    [(-1, float("inf"))]. *)
Fixpoint scan_offsets (read isoform : str) (offsets : list nat)
    (best : option (nat * nat)) : outcome (option (nat * nat)) :=
  match offsets with
  | [] => Ok best
  | i :: offsets' =>
      '(j, mismatches) <- compare_at isoform i read 0%nat 0%nat ;;
      let best := if (j =? length read)%nat && better mismatches best
                  then Some (i, mismatches) else best in
      scan_offsets read isoform offsets' best
  end.

Definition align_to_isoform (read isoform : str) (exons : list exon_row)
    : outcome match_result :=
  best <- scan_offsets read isoform
            (range (Z.of_nat (length isoform) - Z.of_nat (length read) + 1))
            None ;;
  match best with
  | None => Ok NoMatch
  | Some (i, mismatches) =>
      a <- find_alignment (Z.of_nat (length read)) (Z.of_nat i) exons ;;
      Ok (Found a mismatches)
  end.

(** [alignment != -1 and mismatches <= match[1]] *)
Definition replaces (r best : match_result) : bool :=
  match r, best with
  | NoMatch, _ => false
  | Found _ _, NoMatch => true
  | Found _ m, Found _ b => (m <=? b)%nat
  end.

Fixpoint over_isoforms (read : str) (isos : list (string * entry))
    (best : match_result) : outcome match_result :=
  match isos with
  | [] => Ok best
  | (_, (isoform, exons)) :: isos' =>
      r <- align_to_isoform read isoform exons ;;
      over_isoforms read isos' (if replaces r best then r else best)
  end.

Fixpoint over_genes (read : str) (genes : transcriptome)
    (best : match_result) : outcome match_result :=
  match genes with
  | [] => Ok best
  | (_, isos) :: genes' =>
      best <- over_isoforms read isos best ;;
      over_genes read genes' best
  end.

Definition align_to_transcriptome (read : str) (t : transcriptome)
    : outcome match_result :=
  over_genes read t NoMatch.

(** The two nested loops as one loop over [isoforms_of]. *)
Fixpoint over_entries (read : str) (l : list entry) (best : match_result)
    : outcome match_result :=
  match l with
  | [] => Ok best
  | (isoform, exons) :: l' =>
      r <- align_to_isoform read isoform exons ;;
      over_entries read l' (if replaces r best then r else best)
  end.

(** One round of the offset loop when nothing raises. *)
Definition pick (read isoform : str) (best : option (nat * nat)) (i : nat)
    : option (nat * nat) :=
  let m := count_at read isoform i in
  if (m <=? MAX_NUM_MISMATCHES)%nat && better m best then Some (i, m) else best.

(** What the offset loop keeps true of its running best over the offsets
    [seen] so far: it is the first of the windows with the fewest
    mismatches, and there is none only if no window is within the
    ceiling. *)
Definition first_best (read isoform : str) (seen : list nat)
    (best : option (nat * nat)) : Prop :=
  match best with
  | None =>
      Forall (fun i => (MAX_NUM_MISMATCHES < count_at read isoform i)%nat) seen
  | Some (i, m) =>
      count_at read isoform i = m /\ (m <= MAX_NUM_MISMATCHES)%nat
      /\ exists pre post,
           seen = pre ++ i :: post
           /\ Forall (fun i' => (m < count_at read isoform i')%nat) pre
           /\ Forall (fun i' => (m <= count_at read isoform i')%nat) post
  end.

(** [r] is no match or a match with at least [m] mismatches. *)
Definition at_least (m : nat) (r : match_result) : Prop :=
  match r with
  | NoMatch => True
  | Found _ m' => (m <= m')%nat
  end.

(** [r] is no match or a match with more than [m] mismatches. *)
Definition more_than (m : nat) (r : match_result) : Prop :=
  match r with
  | NoMatch => True
  | Found _ m' => (m < m')%nat
  end.

(** [r] is a match with at most [m] mismatches. *)
Definition at_least_as_good (r : match_result) (m : nat) : Prop :=
  match r with
  | NoMatch => False
  | Found _ m' => (m' <= m)%nat
  end.

(** Every isoform of [l] aligns without raising, to a result in [P]. *)
Definition all_align (read : str) (P : match_result -> Prop) (l : list entry)
    : Prop :=
  Forall (fun e => exists r, align_to_isoform read (fst e) (snd e) = Ok r /\ P r) l.

(** The tie-break as the specification words it: among the isoforms with
    the fewest mismatches the first one visited gives the result. *)
Definition first_tie_kept (read : str) (t : transcriptome) : Prop :=
  forall pre e post a m,
    isoforms_of t = pre ++ e :: post ->
    align_to_isoform read (fst e) (snd e) = Ok (Found a m) ->
    all_align read (more_than m) pre ->
    all_align read (at_least m) post ->
    align_to_transcriptome read t = Ok (Found a m).

End Aligner.

End Transcriptome.

(** ** Seed finder *)

Module Seeds.

Definition MIN_INTRON_SIZE : Z := 20.
Definition MAX_INTRON_SIZE : Z := 10000.

(** The notebook prints [BASES] as [['A', 'C', 'G', 'T']]. *)
Definition BASES : list ascii := ["A"; "C"; "G"; "T"]%char.

Definition replace_base_at_index (read_sequence : str) (idx : Z) (base : ascii)
    : str :=
  slice_to read_sequence idx ++ base :: slice_from read_sequence (idx + 1).

(** The 4-tuple [max_so_far = (range, length, read, misses)]. *)
Definition candidate : Type := (Z * Z) * Z * str * Z.

Definition cand_range (c : candidate) : Z * Z := fst (fst (fst c)).
Definition cand_length (c : candidate) : Z := snd (fst (fst c)).
Definition cand_read (c : candidate) : str := snd (fst c).
Definition cand_misses (c : candidate) : Z := snd c.

(** A reported seed [(positions, length, mismatches, query tail)]. *)
Definition seed : Type := list Z * Z * Z * str.

Definition seed_positions (x : seed) : list Z := fst (fst (fst x)).
Definition seed_length (x : seed) : Z := snd (fst (fst x)).
Definition seed_mismatches (x : seed) : Z := snd (fst x).
Definition seed_tail (x : seed) : str := snd x.

(** Mismatches consumed by all the seeds of a list. *)
Definition total_mismatches (seeds : list seed) : Z :=
  fold_right (fun x acc => seed_mismatches x + acc) 0 seeds.

(** Symbols of the read covered by all the seeds of a list. *)
Definition total_seed_length (seeds : list seed) : Z :=
  fold_right (fun x acc => seed_length x + acc) 0 seeds.

(** The candidate read as the specification words it: the symbol is put at
    the next unmatched position of the current best, in the read of the
    current best. *)
Definition candidate_from_best (max_so_far : candidate) (len_read : Z)
    (change : ascii) : str :=
  replace_base_at_index (cand_read max_so_far)
    (len_read - cand_length max_so_far - 1) change.

Section Index.

(** The globals the seed functions read: the suffix array, the indexed
    genome, and the exact matcher [exact_suffix_matches(p, M, occ)] of the
    index module, which returns [((lo, hi), length)]. *)
Variable sa : list Z.
Variable genome_sequence : str.
Variable exact_suffix_matches : str -> (Z * Z) * Z.

(** What the specification says of the length the matcher returns: "the
    number of symbols successfully consumed", so between 0 and the length
    of the query. *)
Definition counts_symbols : Prop :=
  forall p, 0 <= snd (exact_suffix_matches p) <= Z.of_nat (List.length p).

(** The [for change in possible_changes] loop of find_seeds.
    [read_sequence], [len_read], [length] and [misses] do not change in
    the loop; [max_so_far] and [updated] do. *)
Fixpoint try_changes (read_sequence : str) (len_read length misses : Z)
    (possible_changes : list ascii) (max_so_far : candidate) (updated : bool)
    : candidate * bool :=
  match possible_changes with
  | [] => (max_so_far, updated)
  | change :: rest =>
      let new_read :=
        replace_base_at_index read_sequence (len_read - length - 1) change in
      let '(new_range, new_length) := exact_suffix_matches new_read in
      if new_length >? cand_length max_so_far
      then try_changes read_sequence len_read length misses rest
             (new_range, new_length, new_read, misses + 1) true
      else try_changes read_sequence len_read length misses rest
             max_so_far updated
  end.

(** The [while] loop of find_seeds.  Each round that goes on raises the
    mismatch count by one, so [rounds = mismatches - misses] rounds are
    enough (see [improve_returns]). *)
Fixpoint improve (rounds : nat) (read_sequence : str) (len_read length : Z)
    (mismatches : Z) (max_so_far : candidate) (updated : bool)
    : outcome candidate :=
  if (cand_misses max_so_far <? mismatches)
     && (cand_length max_so_far <? len_read) && updated
  then
    match rounds with
    | O => Diverges
    | S rounds' =>
        observed <- index (cand_read max_so_far)
                      (len_read - cand_length max_so_far - 1) ;;
        let possible_changes :=
          filter (fun b => negb (Ascii.eqb b observed)) BASES in
        let misses := cand_misses max_so_far in
        let '(max_so_far, updated) :=
          try_changes read_sequence len_read length misses possible_changes
            max_so_far false in
        improve rounds' read_sequence len_read length mismatches
          max_so_far updated
    end
  else Ok max_so_far.

(** [[sa[i] for i in max_so_far[0]]]: the comprehension runs over the two
    members of the tuple [(lo, hi)]. *)
Definition positions_of (_range : Z * Z) : outcome (list Z) :=
  a <- index sa (fst _range) ;;
  b <- index sa (snd _range) ;;
  Ok [a; b].

Fixpoint find_seeds (read_sequence : str) (mismatches : Z) (k : nat) {struct k}
    : outcome (list seed) :=
  let read_sequence := rev read_sequence in
  let len_read := Z.of_nat (length read_sequence) in
  match k with
  | O => Ok []
  | S k' =>
      let '(_range, length) := exact_suffix_matches read_sequence in
      max_so_far <- improve (Z.to_nat mismatches) read_sequence len_read length
                      mismatches (_range, length, read_sequence, 0) true ;;
      positions <- positions_of (cand_range max_so_far) ;;
      let seeds :=
        [(positions, cand_length max_so_far, cand_misses max_so_far,
          slice_from (cand_read max_so_far)
            (len_read - cand_length max_so_far))] in
      if len_read =? cand_length max_so_far then Ok seeds
      else
        more <- find_seeds
                  (slice_to (cand_read max_so_far)
                     (Z.of_nat (List.length (cand_read max_so_far))
                      - cand_length max_so_far))
                  (mismatches - cand_misses max_so_far) k' ;;
        Ok (seeds ++ more)
  end.

(** [not high_bound]: true for [None] and for [0]. *)
Definition not_ (high_bound : option Z) : bool :=
  match high_bound with
  | None => true
  | Some h => h =? 0
  end.

(** The test of check_seeds; [and] binds tighter than [or]. *)
Definition keeps (high_bound : option Z) (location : Z) : bool :=
  not_ high_bound
  || match high_bound with
     | None => false
     | Some h =>
         (location <? h)
         && ((MIN_INTRON_SIZE <=? h - location)
             && (h - location <=? MAX_INTRON_SIZE))
     end.

Fixpoint check_rows (rows : list Z) (length : Z) (high_bound : option Z)
    (valid_seeds : list Z) : outcome (list Z) :=
  match rows with
  | [] => Ok valid_seeds
  | i :: rows' =>
      at_i <- index sa i ;;
      let location := at_i + length in
      check_rows rows' length high_bound
        (if keeps high_bound location
         then valid_seeds ++ [Z.of_nat (List.length genome_sequence) + 1 - location]
         else valid_seeds)
  end.

Definition check_seeds (_range : Z * Z) (length : Z) (high_bound : option Z)
    : outcome (list Z) :=
  check_rows (range2 (fst _range) (snd _range)) length high_bound [].

(** The suffix-array interval [lo, hi) written out: [sa[i]] for every
    [lo <= i < hi], as the loop of check_seeds visits them. *)
Definition materialized (_range : Z * Z) : list (option Z) :=
  map (py_index sa) (range2 (fst _range) (snd _range)).

(** The gap the filter is about: from the end of the match to the seed
    anchored at [high_bound]. *)
Definition gap_allowed (high_bound location : Z) : Prop :=
  MIN_INTRON_SIZE <= high_bound - location <= MAX_INTRON_SIZE.

End Index.

End Seeds.

(** ** The index behind the seed finder *)

Module FMIndex.

(** The index module, from which the notebooks import get_suffix_array,
    get_bwt, get_M, get_occ and exact_suffix_matches, is not among the
    sources.  The definitions of this module follow sections 3 and 4.1 to
    4.3 of the specification.  The theorems on find_seeds hold for any
    suffix array and any matcher; this one is used to run find_seeds and
    check_seeds on small genomes. *)

(** Modelled from the spec: the order of the suffixes, "lexicographically
    non-decreasing", the terminator being smaller than every symbol of the
    alphabet (symbols are compared by their codes). *)
Fixpoint lex_leb (a b : str) : bool :=
  match a, b with
  | [], _ => true
  | _ :: _, [] => false
  | x :: a', y :: b' =>
      if (nat_of_ascii x <? nat_of_ascii y)%nat then true
      else if (nat_of_ascii y <? nat_of_ascii x)%nat then false
      else lex_leb a' b'
  end.

(** Modelled from the spec: one step of the "naive comparison sort" of
    the suffixes, which puts suffix [i] in its place among sorted ones. *)
Fixpoint insert_suffix (text : str) (i : nat) (sorted : list nat) : list nat :=
  match sorted with
  | [] => [i]
  | j :: rest =>
      if lex_leb (skipn i text) (skipn j text) then i :: sorted
      else j :: insert_suffix text i rest
  end.

(** Modelled from the spec: get_suffix_array, "the sorted order of all
    suffixes of a terminated text". *)
Definition get_suffix_array (text : str) : list Z :=
  map Z.of_nat
    (fold_right (insert_suffix text) [] (seq 0 (length text))).

(** Modelled from the spec: get_bwt, "BWT[i] = text[SuffixArray[i]-1]
    (wrapping to the terminator position when SuffixArray[i]==0)". *)
Definition get_bwt (text : str) (sa : list Z) : str :=
  map (fun i =>
         nth (Z.to_nat (if i =? 0 then Z.of_nat (length text) - 1 else i - 1))
           text "$"%char)
      sa.

(** Modelled from the spec: get_M, for each symbol "the count of symbols
    strictly smaller than it, summed over the whole text". *)
Definition get_M (text : str) (c : ascii) : Z :=
  Z.of_nat
    (length (filter (fun d => (nat_of_ascii d <? nat_of_ascii c)%nat) text)).

(** Modelled from the spec: get_occ, "the count of that symbol in
    BWT[0:prefix-length]". *)
Definition get_occ (bwt : str) (c : ascii) (i : Z) : Z :=
  Z.of_nat (length (filter (Ascii.eqb c) (firstn (Z.to_nat i) bwt))).

(** Modelled from the spec: the backward search, "lo' = M[c] + Occ[c][lo],
    hi' = M[c] + Occ[c][hi]; if lo' >= hi', the symbol cannot extend the
    match: stop"; [matched] is "the number of symbols successfully
    consumed".  [unread] is the query from its last symbol to its first. *)
Fixpoint backward_search (M : ascii -> Z) (occ : ascii -> Z -> Z)
    (unread : str) (lo hi matched : Z) : (Z * Z) * Z :=
  match unread with
  | [] => ((lo, hi), matched)
  | c :: unread' =>
      let lo' := M c + occ c lo in
      let hi' := M c + occ c hi in
      if lo' >=? hi' then ((lo, hi), matched)
      else backward_search M occ unread' lo' hi' (matched + 1)
  end.

(** Modelled from the spec: exact_suffix_matches, which "scans query from
    its last symbol to its first" from the interval of all rows and
    "returns (interval, matched_length)". *)
Definition exact_suffix_matches (text : str) (p : str) : (Z * Z) * Z :=
  let bwt := get_bwt text (get_suffix_array text) in
  backward_search (get_M text) (get_occ bwt) (rev p)
    0 (Z.of_nat (length text)) 0.

End FMIndex.

(** ** Inputs used to run the definitions *)

Module Examples.
Import Transcriptome.

(** Two genes of one isoform each.  The first isoform has two exons,
    [100..104) and [200..204); the second has one, [500..508). *)
Definition two_exons : entry :=
  (chars "AACGTTAG", [(0, 100, 4); (4, 200, 4)]).
Definition one_exon : entry :=
  (chars "CCACGTTC", [(0, 500, 8)]).
Definition two_genes : transcriptome :=
  [("gene1"%string, [("iso1"%string, two_exons)]);
   ("gene2"%string, [("iso2"%string, one_exon)])].

(** Occurs verbatim in both isoforms: at offset 1 of the first, across its
    exon junction, and at offset 2 of the second. *)
Definition junction_read : str := chars "ACGTT".

(** The same two genes with the two-exon isoform met last. *)
Definition junction_last : transcriptome :=
  [("gene2"%string, [("iso2"%string, one_exon)]);
   ("gene1"%string, [("iso1"%string, two_exons)])].

(** Differs from every window of both isoforms in three places or more. *)
Definition foreign_read : str := chars "GGGGG".

(** A genome and an annotation from which the notebook builds the first
    isoform: exons [2..6) and [9..13), "AACG" and "TTAG". *)
Definition small_genome : str := chars "GGAACGCCCTTAGGG".
Definition small_genes : list Gene :=
  [{| gene_id := "gene1";
      gene_isoforms :=
        [{| isoform_id := "iso1";
            isoform_exons :=
              [{| exon_id := "e1"; exon_start := 2; exon_end := 6 |};
               {| exon_id := "e2"; exon_start := 9; exon_end := 13 |}] |}] |}].

(** The first gene alone. *)
Definition one_gene : transcriptome :=
  [("gene1"%string, [("iso1"%string, two_exons)])].

(** The genome of the scenario of section 8 of the specification, with its
    terminator: "ACGT" occurs at 0, 4 and 8. *)
Definition repeats : str := chars "ACGTACGTACGT$".

(** A genome that holds "GATTACA" once, at 0. *)
Definition gattaca : str := chars "GATTACATTT$".

(** find_seeds reverses its argument: the query is "GCTTGCA", which differs
    from "GATTACA" at index 1 and at index 4. *)
Definition two_off_read : str := chars "ACGTTCG".

(** The index of the second notebook: the suffix array of the reversed
    genome with its terminator. *)
Definition plain_genome : str := chars "ACGTACGTACGT".
Definition mirrored_sa : list Z :=
  FMIndex.get_suffix_array (rev plain_genome ++ chars "$").

End Examples.

(** * Properties *)

(** ** Outcomes and Python indexing *)

Lemma bind_Ok {A B : Type} (c : outcome A) (k : A -> outcome B) (b : B) :
  bind c k = Ok b -> exists a, c = Ok a /\ k a = Ok b.
Proof.
  destruct c as [a | |]; simpl; intros H; try discriminate.
  exists a. split; [reflexivity | exact H].
Qed.

Lemma index_Ok {A : Type} (l : list A) (i : Z) (a : A) :
  index l i = Ok a -> py_index l i = Some a.
Proof.
  unfold index. destruct (py_index l i); intros H; inversion H; reflexivity.
Qed.

Lemma py_index_nonneg {A : Type} (l : list A) (i : nat) :
  py_index l (Z.of_nat i) = nth_error l i.
Proof.
  unfold py_index.
  destruct (Z.leb_spec 0 (Z.of_nat i)); [| lia].
  now rewrite Nat2Z.id.
Qed.

Lemma index_nth {A : Type} (l : list A) (i : nat) (a : A) :
  nth_error l i = Some a -> index l (Z.of_nat i) = Ok a.
Proof.
  intros H. unfold index. now rewrite py_index_nonneg, H.
Qed.

Lemma py_index_In {A : Type} (l : list A) (i : Z) (a : A) :
  py_index l i = Some a -> In a l.
Proof.
  unfold py_index.
  destruct (0 <=? i); [apply nth_error_In |].
  destruct (_ <=? i); [apply nth_error_In | discriminate].
Qed.

Lemma index_In {A : Type} (l : list A) (i : Z) (a : A) :
  index l i = Ok a -> In a l.
Proof. intros H. eapply py_index_In, index_Ok, H. Qed.

Lemma app_cons_assoc {A : Type} (pre : list A) (r : A) (post : list A) :
  pre ++ r :: post = (pre ++ [r]) ++ post.
Proof. rewrite <- app_assoc. reflexivity. Qed.

Lemma index_past_the_rows {A : Type} (l : list A) (idx : Z) :
  Z.of_nat (length l) <= idx -> index l (idx + 1) = @IndexError A.
Proof.
  intros H. unfold index, py_index.
  destruct (Z.leb_spec 0 (idx + 1)); [| lia].
  replace (nth_error l (Z.to_nat (idx + 1))) with (@None A); [reflexivity |].
  symmetry. apply nth_error_None. lia.
Qed.

Lemma skipn_nth_cons {A : Type} (l : list A) (n : nat) (d : A) :
  nth_error l n = Some d -> skipn n l = d :: skipn (S n) l.
Proof.
  revert n. induction l as [| x l IH]; intros [| n] H; try discriminate.
  - inversion H. reflexivity.
  - simpl in H. apply IH in H. exact H.
Qed.

Ltac bind_inv H :=
  let x := fresh "x" in
  let Hx := fresh "Hx" in
  apply bind_Ok in H; destruct H as [x [Hx H]].

(** ** Running the definitions *)

Module Runs.
Import Transcriptome.

Example build_small :
  build_transcriptome Examples.small_genome Examples.small_genes
  = [("gene1"%string,
      [("iso1"%string, (chars "AACGTTAG", [(0, 2, 4); (4, 9, 4)]))])].
Proof. reflexivity. Qed.

Example align_across_junction :
  align_to_transcriptome 6 Examples.junction_read
    (build_transcriptome Examples.small_genome Examples.small_genes)
  = Ok (Found [(0, 3, 3); (3, 9, 2)] 0).
Proof. reflexivity. Qed.

Example align_with_one_mismatch :
  align_to_isoform 6 (chars "CGTA") (chars "AACGTTAG") [(0, 100, 4); (4, 200, 4)]
  = Ok (Found [(0, 102, 2); (2, 200, 2)] 1).
Proof. reflexivity. Qed.

(** A window that runs past the last exon row: [exons[idx]] raises. *)
Example alignment_past_the_table :
  find_alignment 5 6 [(0, 100, 4); (4, 200, 4)] = IndexError.
Proof. reflexivity. Qed.

(** A position before the table: the search calls itself for ever. *)
Example search_before_the_table :
  find_alignment 3 (-1) [(0, 100, 4); (4, 200, 4)] = Diverges.
Proof. reflexivity. Qed.

(** A table with a row of negative length, which no exon with
    [end > start] gives: the pieces still follow one another, but their
    read_start goes back. *)
Example pieces_on_a_negative_row :
  find_alignment 6 2 [(0, 100, 4); (4, 200, -1); (3, 300, 9)]
  = Ok [(0, 102, 2); (2, 200, -1); (1, 300, 5)].
Proof. reflexivity. Qed.

(** The scenario of section 8 of the specification: "ACGTACGT" matches the
    genome "ACGTACGTACGT$" over its whole length, at 0 and 4. *)
Example scenario_exact_match :
  FMIndex.get_suffix_array Examples.repeats
  = [12; 8; 4; 0; 9; 5; 1; 10; 6; 2; 11; 7; 3]
  /\ FMIndex.exact_suffix_matches Examples.repeats (chars "ACGTACGT")
     = ((2, 4), 8)
  /\ Seeds.materialized (FMIndex.get_suffix_array Examples.repeats) (2, 4)
     = [Some 4; Some 0].
Proof. vm_compute. repeat split. Qed.

Example replace_in_the_middle :
  Seeds.replace_base_at_index (chars "GCTTGCA") 4 "A"%char = chars "GCTTACA".
Proof. reflexivity. Qed.

(** When the interval ends at the last row of the suffix array, [sa[hi]]
    is out of range and find_seeds raises. *)
Example seed_at_the_last_row :
  FMIndex.exact_suffix_matches Examples.repeats (chars "TACGT") = ((11, 13), 5)
  /\ Seeds.find_seeds (FMIndex.get_suffix_array Examples.repeats)
       (FMIndex.exact_suffix_matches Examples.repeats) (chars "TGCAT") 6 1
     = IndexError.
Proof. vm_compute. repeat split. Qed.

End Runs.

Module TranscriptomeFacts.
Import Transcriptome.

(** *** Shape of the alignments built by find_alignment *)

Lemma read_start_eq (a b c : Z) : read_start (a, b, c) = a.
Proof. reflexivity. Qed.

Lemma reference_start_eq (a b c : Z) : reference_start (a, b, c) = b.
Proof. reflexivity. Qed.

Lemma piece_length_eq (a b c : Z) : piece_length (a, b, c) = c.
Proof. reflexivity. Qed.

Lemma total_length_one (p : piece) : total_length [p] = piece_length p.
Proof. unfold total_length. simpl. lia. Qed.

Lemma total_length_app (a b : alignment) :
  total_length (a ++ b) = total_length a + total_length b.
Proof. induction a as [| p a IH]; simpl; [reflexivity | rewrite IH; lia]. Qed.

Lemma chained_snoc (a : alignment) (p : piece) (start : Z) :
  chained start a -> read_start p = start + total_length a ->
  chained start (a ++ [p]).
Proof.
  revert start. induction a as [| q a IH]; simpl; intros start Ha Hp.
  - split; [lia | exact I].
  - destruct Ha as [Hq Ha]. split; [exact Hq |].
    apply IH; [exact Ha | lia].
Qed.

Lemma chained_consecutive (a : alignment) (start : Z) (i : nat) (p q : piece) :
  chained start a ->
  nth_error a i = Some p -> nth_error a (S i) = Some q ->
  read_start q = read_start p + piece_length p.
Proof.
  revert start i. induction a as [| x a IH]; intros start i Hc Hp Hq.
  - destruct i; discriminate.
  - destruct Hc as [Hx Hc]. destruct i as [| i].
    + simpl in Hp. inversion Hp; subst x.
      destruct a as [| y a]; [discriminate |].
      simpl in Hq. inversion Hq; subst y.
      destruct Hc as [Hy _]. lia.
    + simpl in Hp. eapply IH; eauto.
Qed.

Lemma chained_nonneg_sorted (a : alignment) (start : Z) :
  chained start a -> Forall (fun p => 0 <= piece_length p) a ->
  Forall (fun p => start <= read_start p) a
  /\ StronglySorted Z.le (map read_start a).
Proof.
  revert start. induction a as [| p a IH]; simpl; intros start Hc Hl.
  - split; constructor.
  - destruct Hc as [Hp Hc]. inversion Hl as [| ? ? Hp0 Hl']; subst.
    destruct (IH _ Hc Hl') as [Hlow Hs]. split.
    + constructor; [lia |].
      eapply Forall_impl; [| exact Hlow]. simpl. intros q Hq. lia.
    + constructor; [exact Hs |].
      apply Forall_map. eapply Forall_impl; [| exact Hlow].
      simpl. intros q Hq. lia.
Qed.

(** What the loop of find_alignment keeps true: the pieces so far are
    chained from 0 and [last] ends where they end. *)
Lemma extend_chained left exons idx read_len algn last a :
  extend left exons idx read_len algn last = Ok a ->
  chained 0 algn -> read_start last + piece_length last = total_length algn ->
  chained 0 a.
Proof.
  revert idx read_len algn last.
  induction left as [| left IH]; intros idx read_len algn last H Hc Hl;
    simpl in H; destruct (read_len >? 0); try discriminate;
    try (inversion H; subst; exact Hc).
  bind_inv H. destruct x as [[off gstart] len].
  eapply IH; [exact H | |].
  - apply chained_snoc; [exact Hc | rewrite read_start_eq; lia].
  - rewrite total_length_app, total_length_one, read_start_eq.
    rewrite !piece_length_eq. lia.
Qed.

Lemma find_alignment_chained read_len align_start exons a :
  find_alignment read_len align_start exons = Ok a -> chained 0 a.
Proof.
  unfold find_alignment. intros H.
  bind_inv H. bind_inv H. destruct x0 as [[off gstart] len].
  eapply extend_chained; [exact H | |].
  - simpl. split; [reflexivity | exact I].
  - rewrite total_length_one, read_start_eq, !piece_length_eq. lia.
Qed.

Lemma extend_prefix left exons idx read_len algn last a :
  extend left exons idx read_len algn last = Ok a ->
  exists more, a = algn ++ more.
Proof.
  revert idx read_len algn last.
  induction left as [| left IH]; intros idx read_len algn last H;
    simpl in H; destruct (read_len >? 0); try discriminate;
    try (inversion H; subst; exists []; now rewrite app_nil_r).
  bind_inv H. destruct x as [[off gstart] len].
  apply IH in H. destruct H as [more ->].
  eexists. rewrite <- app_assoc. reflexivity.
Qed.

(** *** The offset scan of align_to_isoform *)

Section Scan.

Variable MAX : nat.

Lemma compare_at_spec isoform i rest j m :
  (i + j + length rest <= length isoform)%nat -> (m <= MAX)%nat ->
  let total := (m + mismatch_count rest (skipn (i + j) isoform))%nat in
  ((total <= MAX)%nat ->
   compare_at MAX isoform i rest j m = Ok ((j + length rest)%nat, total))
  /\ ((MAX < total)%nat ->
      exists j' m', compare_at MAX isoform i rest j m = Ok (j', m')
                    /\ (j' < j + length rest)%nat).
Proof.
  revert j m. induction rest as [| c rest IH]; intros j m Hfit Hm; simpl.
  - rewrite !Nat.add_0_r. split; [reflexivity | lia].
  - simpl in Hfit.
    destruct (nth_error isoform (i + j)) as [d |] eqn:Hd.
    2:{ apply nth_error_None in Hd. lia. }
    rewrite (skipn_nth_cons _ _ _ Hd).
    set (m1 := if Ascii.eqb d c then m else S m).
    assert (Hm1 : (m + (if Ascii.eqb d c then 0 else 1) = m1)%nat)
      by (unfold m1; destruct (Ascii.eqb d c); lia).
    destruct (Nat.ltb_spec MAX m1) as [Hbreak | Hgo].
    + split; [lia |]. intros _. exists j, m1. split; [reflexivity | lia].
    + replace (S (i + j)) with (i + S j)%nat by lia.
      destruct (IH (S j) m1) as [IHa IHb]; [lia | exact Hgo |].
      split.
      * intros Ht. rewrite IHa by lia. f_equal. f_equal; lia.
      * intros Ht. destruct IHb as [j' [m' [E Hj]]]; [lia |].
        exists j', m'. split; [exact E | lia].
Qed.

(** At an offset where the read fits, the inner loop runs to the end iff
    the window has at most [MAX] mismatches. *)
Lemma scan_step read isoform i best :
  (i + length read <= length isoform)%nat ->
  exists j m,
    compare_at MAX isoform i read 0 0 = Ok (j, m)
    /\ (if (j =? length read)%nat && better m best then Some (i, m) else best)
       = pick MAX read isoform best i.
Proof.
  intros Hfit. unfold pick, count_at.
  destruct (compare_at_spec isoform i read 0 0) as [Ha Hb];
    [lia | lia |]. simpl in Ha, Hb. rewrite Nat.add_0_r in Ha, Hb.
  destruct (Nat.leb_spec (mismatch_count read (skipn i isoform)) MAX) as [Hle | Hgt].
  - rewrite (Ha Hle). do 2 eexists. split; [reflexivity |].
    now rewrite Nat.eqb_refl.
  - destruct (Hb Hgt) as [j' [m' [E Hj]]]. rewrite E.
    exists j', m'. split; [reflexivity |].
    destruct (Nat.eqb_spec j' (length read)); [lia | reflexivity].
Qed.

Lemma scan_offsets_spec read isoform offsets best :
  Forall (fun i => (i + length read <= length isoform)%nat) offsets ->
  scan_offsets MAX read isoform offsets best
  = Ok (fold_left (pick MAX read isoform) offsets best).
Proof.
  revert best. induction offsets as [| i offsets IH]; intros best Hfit.
  - reflexivity.
  - inversion Hfit as [| ? ? Hi Hrest]; subst. simpl.
    destruct (scan_step read isoform i best Hi) as [j [m [E Hp]]].
    rewrite E. simpl. rewrite Hp. apply IH, Hrest.
Qed.

Lemma range_fits (read isoform : str) :
  Forall (fun i => (i + length read <= length isoform)%nat)
    (range (Z.of_nat (length isoform) - Z.of_nat (length read) + 1)).
Proof.
  apply Forall_forall. intros i Hi. unfold range in Hi.
  apply in_seq in Hi. lia.
Qed.

Lemma range_covers (read isoform : str) i :
  (i + length read <= length isoform)%nat ->
  In i (range (Z.of_nat (length isoform) - Z.of_nat (length read) + 1)).
Proof. intros H. unfold range. apply in_seq. lia. Qed.

Lemma pick_keeps_first read isoform seen best i :
  first_best MAX read isoform seen best ->
  first_best MAX read isoform (seen ++ [i]) (pick MAX read isoform best i).
Proof.
  intros Hb. unfold pick.
  destruct (Nat.leb_spec (count_at read isoform i) MAX) as [Hle | Hgt]; simpl.
  - destruct best as [[i0 m0] |]; simpl in *.
    + destruct Hb as [Hc [Hm [pre [post [Hs [Hpre Hpost]]]]]].
      destruct (Nat.ltb_spec (count_at read isoform i) m0) as [Hlt | Hge].
      * split; [reflexivity |]. split; [exact Hle |].
        exists seen, []. split; [reflexivity |]. split; [| constructor].
        subst seen. apply Forall_app. split; [| constructor].
        -- eapply Forall_impl; [| exact Hpre]. simpl. intros; lia.
        -- lia.
        -- eapply Forall_impl; [| exact Hpost]. simpl. intros; lia.
      * split; [exact Hc |]. split; [exact Hm |].
        exists pre, (post ++ [i]). split.
        -- subst seen. rewrite <- app_assoc. reflexivity.
        -- split; [exact Hpre |]. apply Forall_app. split; [exact Hpost |].
           constructor; [lia | constructor].
    + split; [reflexivity |]. split; [exact Hle |].
      exists seen, []. split; [reflexivity |]. split; [| constructor].
      eapply Forall_impl; [| exact Hb]. simpl. intros; lia.
  - destruct best as [[i0 m0] |]; simpl in *.
    + destruct Hb as [Hc [Hm [pre [post [Hs [Hpre Hpost]]]]]].
      split; [exact Hc |]. split; [exact Hm |].
      exists pre, (post ++ [i]). split.
      * subst seen. rewrite <- app_assoc. reflexivity.
      * split; [exact Hpre |]. apply Forall_app. split; [exact Hpost |].
        constructor; [lia | constructor].
    + apply Forall_app. split; [exact Hb |]. constructor; [lia | constructor].
Qed.

Lemma pick_fold read isoform offsets :
  forall seen best,
    first_best MAX read isoform seen best ->
    first_best MAX read isoform (seen ++ offsets)
      (fold_left (pick MAX read isoform) offsets best).
Proof.
  induction offsets as [| i offsets IH]; intros seen best Hb; simpl.
  - rewrite app_nil_r. exact Hb.
  - rewrite app_cons_assoc. apply IH, pick_keeps_first, Hb.
Qed.

Lemma seq_before a n pre i post :
  seq a n = pre ++ i :: post ->
  forall j, (a <= j < i)%nat -> In j pre.
Proof.
  revert a n. induction pre as [| x pre IH]; intros a n Hs j Hj.
  - destruct n as [| n]; [discriminate |]. simpl in Hs. inversion Hs. lia.
  - destruct n as [| n]; [discriminate |]. simpl in Hs.
    inversion Hs as [[Hx Hrest]]. subst x.
    destruct (Nat.eq_dec j a) as [-> | Hne]; [left; reflexivity |].
    right. eapply IH; [exact Hrest | lia].
Qed.

(** What the scan of one isoform finds: nothing iff no window is within
    the ceiling, else the first of the windows with the fewest
    mismatches. *)
Lemma scan_result read isoform :
  exists best,
    scan_offsets MAX read isoform
      (range (Z.of_nat (length isoform) - Z.of_nat (length read) + 1)) None
    = Ok best
    /\ match best with
       | None => forall i m, occurs_at read isoform i m -> (MAX < m)%nat
       | Some (i, m) =>
           occurs_at read isoform i m /\ (m <= MAX)%nat
           /\ (forall i' m', occurs_at read isoform i' m' -> (m <= m')%nat)
           /\ (forall i' m', occurs_at read isoform i' m' -> (i' < i)%nat ->
                 (m < m')%nat)
       end.
Proof.
  eexists. split; [apply scan_offsets_spec, range_fits |].
  pose proof (pick_fold read isoform
                (range (Z.of_nat (length isoform) - Z.of_nat (length read) + 1))
                [] None (Forall_nil _)) as Hb.
  simpl in Hb.
  destruct (fold_left _ _ None) as [[i m] |]; simpl in Hb.
  - destruct Hb as [Hc [Hm [pre [post [Hs [Hpre Hpost]]]]]].
    assert (Hin : In i (range (Z.of_nat (length isoform) - Z.of_nat (length read) + 1)))
      by (rewrite Hs; apply in_or_app; right; left; reflexivity).
    split; [| split; [exact Hm | split]].
    + split; [| exact Hc]. unfold range in Hin. apply in_seq in Hin. lia.
    + intros i' m' [Hfit Hc'].
      pose proof (range_covers _ _ _ Hfit) as Hi'. rewrite Hs in Hi'.
      rewrite Forall_forall in Hpre, Hpost.
      apply in_app_or in Hi'. destruct Hi' as [Hi' | [Hi' | Hi']].
      * specialize (Hpre _ Hi'). lia.
      * subst i'. lia.
      * specialize (Hpost _ Hi'). lia.
    + intros i' m' [Hfit Hc'] Hlt.
      rewrite Forall_forall in Hpre.
      assert (Hi' : In i' pre) by (eapply seq_before; [exact Hs | lia]).
      specialize (Hpre _ Hi'). lia.
  - intros i m [Hfit Hc].
    rewrite Forall_forall in Hb.
    specialize (Hb _ (range_covers _ _ _ Hfit)). lia.
Qed.

End Scan.

(** *** The binary search on a prefix-length table *)

Lemma table_length_app (a b : list exon_row) :
  table_length (a ++ b) = table_length a + table_length b.
Proof.
  induction a as [| r a IH]; simpl; [reflexivity |].
  unfold table_length in *. simpl. rewrite IH. lia.
Qed.

Lemma table_length_cons (r : exon_row) (a : list exon_row) :
  table_length (r :: a) = snd r + table_length a.
Proof. reflexivity. Qed.

Lemma table_row_bounds off exons j o g len :
  table_from off exons -> nth_error exons j = Some (o, g, len) ->
  off <= o /\ 0 < len /\ o + len <= off + table_length exons.
Proof.
  revert off j. induction exons as [| [[o1 g1] l1] exons IH]; intros off j Ht Hj.
  - destruct j; discriminate.
  - destruct Ht as [Ho [Hl Ht]]. rewrite table_length_cons. simpl snd.
    destruct j as [| j]; simpl in Hj.
    + inversion Hj; subst.
      assert (0 <= table_length exons).
      { clear - Ht. revert Ht. generalize (o + len).
        induction exons as [| [[o2 g2] l2] exons IH]; intros z Ht.
        - unfold table_length. simpl. lia.
        - destruct Ht as [_ [Hl Ht]]. rewrite table_length_cons. simpl snd.
          specialize (IH _ Ht). lia. }
      lia.
    + destruct (IH _ _ Ht Hj) as [H1 [H2 H3]]. lia.
Qed.

Lemma table_rows_ordered off exons j j' o g len o' g' len' :
  table_from off exons ->
  nth_error exons j = Some (o, g, len) ->
  nth_error exons j' = Some (o', g', len') ->
  (j < j')%nat -> o + len <= o'.
Proof.
  revert off j j'. induction exons as [| [[o1 g1] l1] exons IH];
    intros off j j' Ht Hj Hj' Hlt.
  - destruct j; discriminate.
  - destruct Ht as [Ho [Hl Ht]].
    destruct j' as [| j']; [lia |]. simpl in Hj'.
    destruct j as [| j]; simpl in Hj.
    + inversion Hj; subst.
      destruct (table_row_bounds _ _ _ _ _ _ Ht Hj') as [H1 _]. exact H1.
    + eapply IH; eauto. lia.
Qed.

Lemma table_row_exists off exons pos :
  table_from off exons -> off <= pos < off + table_length exons ->
  exists j o g len, nth_error exons j = Some (o, g, len) /\ o <= pos < o + len.
Proof.
  revert off. induction exons as [| [[o1 g1] l1] exons IH]; intros off Ht Hpos.
  - unfold table_length in Hpos. simpl in Hpos. lia.
  - destruct Ht as [Ho [Hl Ht]]. rewrite table_length_cons in Hpos.
    simpl snd in Hpos. subst o1.
    destruct (Z.ltb_spec pos (off + l1)) as [Hin | Hout].
    + exists 0%nat, off, g1, l1. split; [reflexivity | lia].
    + destruct (IH _ Ht) as [j [o [g [len [Hj Hb]]]]]; [lia |].
      exists (S j), o, g, len. split; assumption.
Qed.

(** On a prefix-length table the search finds the row that holds the
    position, within as many calls as the interval has members. *)
Lemma find_start_location_finds off exons idx o g len pos :
  table_from off exons ->
  nth_error exons idx = Some (o, g, len) -> o <= pos < o + len ->
  forall calls lo hi,
    0 <= lo <= Z.of_nat idx -> Z.of_nat idx <= hi ->
    hi <= Z.of_nat (length exons) ->
    (Z.to_nat (hi - lo) < calls)%nat ->
    find_start_location calls exons pos lo hi = Ok (Z.of_nat idx).
Proof.
  intros Ht Hidx Hpos.
  assert (Hlen : (idx < length exons)%nat)
    by (apply nth_error_Some; rewrite Hidx; discriminate).
  induction calls as [| calls IH]; intros lo hi Hlo Hhi Hn Hcalls; [lia |].
  simpl.
  assert (Hmid : lo <= (lo + hi) / 2 <= hi /\ (lo + hi) / 2 < Z.of_nat (length exons))
    by (Z.to_euclidean_division_equations; lia).
  destruct Hmid as [Hmid Hmidn].
  remember ((lo + hi) / 2) as mid eqn:Emid.
  destruct (nth_error exons (Z.to_nat mid)) as [[[o1 g1] l1] |] eqn:Hrow.
  2:{ apply nth_error_None in Hrow. lia. }
  rewrite <- (Z2Nat.id mid) at 1 by lia.
  rewrite (index_nth _ _ _ Hrow). simpl.
  destruct (table_row_bounds _ _ _ _ _ _ Ht Hrow) as [_ [Hl1 _]].
  assert (Hcmp : forall a b o2 g2 l2 o3 g3 l3,
             nth_error exons a = Some (o2, g2, l2) ->
             nth_error exons b = Some (o3, g3, l3) ->
             (a < b)%nat -> o2 + l2 <= o3)
    by (intros; eapply table_rows_ordered; eauto).
  destruct (Nat.lt_trichotomy (Z.to_nat mid) idx) as [Hlt | [Heq | Hgt]].
  - pose proof (Hcmp _ _ _ _ _ _ _ _ Hrow Hidx Hlt) as Ho.
    destruct (Z.leb_spec o1 pos), (Z.ltb_spec pos (o1 + l1)); simpl; try lia.
    destruct (Z.leb_spec (o1 + l1) pos); [| lia].
    apply IH; lia.
  - subst idx. rewrite Hidx in Hrow. inversion Hrow; subst o1 g1 l1.
    destruct (Z.leb_spec o pos), (Z.ltb_spec pos (o + len)); simpl; try lia.
    f_equal. lia.
  - pose proof (Hcmp _ _ _ _ _ _ _ _ Hidx Hrow Hgt) as Ho.
    destruct (Z.leb_spec o1 pos), (Z.ltb_spec pos (o1 + l1)); simpl; try lia.
    destruct (Z.leb_spec (o1 + l1) pos); [lia |].
    apply IH; lia.
Qed.

(** Whatever the table, a returned index names a row that holds the
    position. *)
Lemma find_start_location_holds calls exons pos lo hi idx :
  find_start_location calls exons pos lo hi = Ok idx ->
  exists o g len, index exons idx = Ok (o, g, len) /\ o <= pos < o + len.
Proof.
  revert lo hi. induction calls as [| calls IH]; intros lo hi H; [discriminate |].
  simpl in H. bind_inv H. destruct x as [[o g] len].
  destruct (Z.leb_spec o pos), (Z.ltb_spec pos (o + len)); simpl in H;
    try (destruct (o + len <=? pos); eapply IH; exact H).
  inversion H; subst. exists o, g, len. split; [exact Hx | lia].
Qed.

(** *** The depth allowed to the binary search is enough *)

(** More calls do not change an outcome that was reached. *)
Lemma find_start_location_settled calls exons pos :
  forall lo hi more,
    find_start_location calls exons pos lo hi <> Diverges ->
    find_start_location (calls + more) exons pos lo hi
    = find_start_location calls exons pos lo hi.
Proof.
  induction calls as [| calls IH]; intros lo hi more H;
    [exfalso; apply H; reflexivity |].
  simpl in *. unfold index in *.
  destruct (py_index exons ((lo + hi) / 2)) as [[[o g] len] |]; simpl in *;
    [| reflexivity].
  destruct ((o <=? pos) && (pos <? o + len)); [reflexivity |].
  destruct (o + len <=? pos); apply IH; exact H.
Qed.

Lemma find_start_location_call calls exons pos lo hi :
  find_start_location (S calls) exons pos lo hi
  = ('(off, _, len) <- index exons ((lo + hi) / 2) ;;
     if (off <=? pos) && (pos <? off + len) then Ok ((lo + hi) / 2)
     else if off + len <=? pos
          then find_start_location calls exons pos ((lo + hi) / 2 + 1) hi
          else find_start_location calls exons pos lo ((lo + hi) / 2 - 1)).
Proof. reflexivity. Qed.

(** From [lo = hi + 1] or [lo = hi + 2] the search looks at row [lo - 1]
    only: it returns or raises at once, or it calls itself for ever. *)
Lemma find_start_location_stuck_right calls (exons : list exon_row) pos lo
    o g len :
  py_index exons (lo - 1) = Some ((o, g, len) : exon_row) ->
  ((o <=? pos) && (pos <? o + len)) = false -> (o + len <=? pos) = true ->
  find_start_location calls exons pos lo (lo - 1) = Diverges.
Proof.
  intros Hrow Hfound Hright.
  induction calls as [| calls IH]; [reflexivity |].
  rewrite find_start_location_call.
  replace ((lo + (lo - 1)) / 2) with (lo - 1)
    by (Z.to_euclidean_division_equations; lia).
  unfold index. rewrite Hrow. cbn [bind]. rewrite Hfound, Hright.
  replace (lo - 1 + 1) with lo by lia. exact IH.
Qed.

Lemma find_start_location_stuck_left calls (exons : list exon_row) pos lo
    o g len :
  py_index exons (lo - 1) = Some ((o, g, len) : exon_row) ->
  ((o <=? pos) && (pos <? o + len)) = false -> (o + len <=? pos) = false ->
  find_start_location calls exons pos lo (lo - 2) = Diverges.
Proof.
  intros Hrow Hfound Hright.
  induction calls as [| calls IH]; [reflexivity |].
  rewrite find_start_location_call.
  replace ((lo + (lo - 2)) / 2) with (lo - 1)
    by (Z.to_euclidean_division_equations; lia).
  unfold index. rewrite Hrow. cbn [bind]. rewrite Hfound, Hright.
  replace (lo - 1 - 1) with (lo - 2) by lia. exact IH.
Qed.

Lemma find_start_location_inverted calls exons pos lo :
  find_start_location (S calls) exons pos lo (lo - 1)
  = find_start_location 1 exons pos lo (lo - 1).
Proof.
  rewrite !find_start_location_call.
  replace ((lo + (lo - 1)) / 2) with (lo - 1)
    by (Z.to_euclidean_division_equations; lia).
  unfold index.
  destruct (py_index exons (lo - 1)) as [[[o g] len] |] eqn:Hrow; cbn [bind];
    [| reflexivity].
  destruct ((o <=? pos) && (pos <? o + len)) eqn:Hfound; [reflexivity |].
  destruct (o + len <=? pos) eqn:Hright.
  - replace (lo - 1 + 1) with lo by lia.
    eapply find_start_location_stuck_right; eauto.
  - replace (lo - 1 - 1) with (lo - 2) by lia.
    eapply find_start_location_stuck_left; eauto.
Qed.

(** An interval of [hi - lo + 1] rows is settled in [hi - lo + 2] calls. *)
Lemma find_start_location_bounded exons pos :
  forall width lo hi calls,
    hi - lo + 1 = Z.of_nat width -> (width + 1 <= calls)%nat ->
    find_start_location calls exons pos lo hi
    = find_start_location (width + 1) exons pos lo hi.
Proof.
  induction width as [width IH] using lt_wf_ind. intros lo hi calls Hw Hcalls.
  destruct width as [| width].
  - replace hi with (lo - 1) by lia.
    destruct calls as [| calls]; [lia |].
    apply find_start_location_inverted.
  - destruct calls as [| calls]; [lia |].
    replace (S width + 1)%nat with (S (S width)) by lia.
    rewrite (find_start_location_call calls), (find_start_location_call (S width)).
    assert (Hmid : lo <= (lo + hi) / 2 <= hi)
      by (Z.to_euclidean_division_equations; lia).
    remember ((lo + hi) / 2) as mid eqn:Emid.
    unfold index.
    destruct (py_index exons mid) as [[[o g] len] |]; cbn [bind]; [| reflexivity].
    destruct ((o <=? pos) && (pos <? o + len)); [reflexivity |].
    destruct (o + len <=? pos).
    + transitivity (find_start_location (Z.to_nat (hi - (mid + 1) + 1) + 1)
                      exons pos (mid + 1) hi);
        [| symmetry]; apply IH; lia.
    + transitivity (find_start_location (Z.to_nat (mid - 1 - lo + 1) + 1)
                      exons pos lo (mid - 1));
        [| symmetry]; apply IH; lia.
Qed.

(** The depth that find_alignment allows is the depth the search needs:
    with any larger number of calls the outcome is the same, so [Diverges]
    stands for a search that does not end. *)
Lemma find_start_location_more_calls calls exons pos :
  (search_depth exons <= calls)%nat ->
  find_start_location calls exons pos 0 (Z.of_nat (length exons))
  = find_start_location (search_depth exons) exons pos
      0 (Z.of_nat (length exons)).
Proof.
  intros H. unfold search_depth in *.
  rewrite (find_start_location_bounded exons pos (S (length exons))) by lia.
  replace (S (S (length exons))) with (S (length exons) + 1)%nat by lia.
  reflexivity.
Qed.

(** *** find_alignment on a prefix-length table *)

Lemma nth_error_middle {A : Type} (pre : list A) (r : A) (post : list A) :
  nth_error (pre ++ r :: post) (length pre) = Some r.
Proof. induction pre as [| x pre IH]; simpl; [reflexivity | exact IH]. Qed.

(** The loop over the exons after the one that holds the start: it ends
    without raising when the rows left are long enough for what is left of
    the read, and the pieces it adds are as long as what was left. *)
Lemma extend_covers post :
  forall pre r exons read_len algn last,
    exons = pre ++ r :: post ->
    read_len <= table_length post ->
    exists a,
      extend (S (length post)) exons (Z.of_nat (length pre)) read_len algn last
      = Ok a
      /\ total_length a = total_length algn + Z.max 0 read_len
      /\ (read_len <= 0 -> a = algn)
      /\ (forall o2 g2 l2 post',
            post = (o2, g2, l2) :: post' -> 0 < read_len <= l2 ->
            a = algn ++ [(read_start last + piece_length last, g2, read_len)]).
Proof.
  induction post as [| [[o2 g2] l2] post IH];
    intros pre r exons read_len algn last Hex Hlen.
  - unfold table_length in Hlen. simpl in Hlen. simpl.
    destruct (Z.gtb_spec read_len 0) as [Hpos | Hneg]; [lia |].
    exists algn. repeat split; try lia; try reflexivity;
      try (intros; discriminate).
  - rewrite table_length_cons in Hlen. simpl snd in Hlen.
    cbn [extend length].
    destruct (Z.gtb_spec read_len 0) as [Hpos | Hneg].
    + assert (Hrow : index exons (Z.of_nat (length pre) + 1) = Ok (o2, g2, l2)).
      { replace (Z.of_nat (length pre) + 1)
          with (Z.of_nat (length (pre ++ [r]))) by (rewrite length_app; simpl; lia).
        apply index_nth. subst exons. rewrite app_cons_assoc.
        apply nth_error_middle. }
      rewrite Hrow. cbn [bind].
      set (p := (read_start last + piece_length last, g2,
                 if read_len <=? l2 then read_len else l2)).
      destruct (IH (pre ++ [r]) (o2, g2, l2) exons (read_len - l2) (algn ++ [p]) p)
        as [a [Ha [Ht [Hstop _]]]].
      { subst exons. rewrite <- app_assoc. reflexivity. }
      { lia. }
      replace (Z.of_nat (length (pre ++ [r]))) with (Z.of_nat (length pre) + 1)
        in Ha by (rewrite length_app; simpl; lia).
      exists a. split; [exact Ha |]. split; [| split].
      * rewrite Ht, total_length_app, total_length_one. unfold p.
        rewrite piece_length_eq.
        destruct (Z.leb_spec read_len l2); lia.
      * lia.
      * intros o3 g3 l3 post' Hc Hr. inversion Hc; subst o3 g3 l3 post'.
        rewrite Hstop by lia. unfold p.
        destruct (Z.leb_spec read_len l2); [reflexivity | lia].
    + exists algn. repeat split; try lia; try reflexivity; intros; lia.
Qed.

Lemma table_from_middle off pre o g len post :
  table_from off (pre ++ (o, g, len) :: post) ->
  o = off + table_length pre /\ 0 < len.
Proof.
  revert off. induction pre as [| [[o1 g1] l1] pre IH]; intros off Ht.
  - destruct Ht as [Ho [Hl _]]. unfold table_length. simpl. lia.
  - destruct Ht as [Ho [Hl Ht]]. apply IH in Ht.
    rewrite table_length_cons. simpl snd. lia.
Qed.

(** The alignment of a window that lies inside a prefix-length table. *)
Lemma find_alignment_covers exons pre o g len post pos read_len :
  table_from 0 exons -> exons = pre ++ (o, g, len) :: post ->
  o <= pos < o + len -> 0 <= read_len ->
  pos + read_len <= table_length exons ->
  exists a,
    find_alignment read_len pos exons = Ok a
    /\ total_length a = read_len
    /\ (pos + read_len <= o + len -> a = [(0, g + (pos - o), read_len)])
    /\ (forall o2 g2 l2 post',
          post = (o2, g2, l2) :: post' ->
          o2 < pos + read_len <= o2 + l2 ->
          a = [(0, g + (pos - o), o2 - pos);
               (o2 - pos, g2, pos + read_len - o2)]).
Proof.
  intros Ht Hex Hpos Hrl Hfit.
  assert (Hrow : nth_error exons (length pre) = Some (o, g, len))
    by (subst exons; apply nth_error_middle).
  assert (Hn : length exons = (length pre + S (length post))%nat)
    by (subst exons; rewrite length_app; reflexivity).
  unfold find_alignment.
  rewrite (find_start_location_finds 0 exons (length pre) o g len pos Ht Hrow Hpos)
    by (unfold search_depth; lia).
  cbn [bind]. rewrite (index_nth _ _ _ Hrow). cbn [bind].
  replace (Z.to_nat (Z.of_nat (length exons) - Z.of_nat (length pre)))
    with (S (length post)) by lia.
  assert (Ho : o = table_length pre /\ 0 < len).
  { subst exons. apply table_from_middle in Ht. lia. }
  assert (Htot : table_length exons = table_length pre + len + table_length post).
  { subst exons. rewrite table_length_app, table_length_cons. simpl snd. lia. }
  set (first := (0, g + (pos - o),
                 if read_len + (pos - o) <=? len then read_len else len - (pos - o))).
  destruct (extend_covers post pre (o, g, len) exons
              (read_len - (len - (pos - o))) [first] first Hex)
    as [a [Ha [Hta [Hstop Htwo]]]]; [lia |].
  exists a. split; [exact Ha |].
  rewrite total_length_one in Hta. unfold first in Hta at 1.
  rewrite piece_length_eq in Hta.
  split; [| split].
  - destruct (Z.leb_spec (read_len + (pos - o)) len); lia.
  - intros Hone. rewrite Hstop by lia. unfold first.
    destruct (Z.leb_spec (read_len + (pos - o)) len); [reflexivity | lia].
  - intros o2 g2 l2 post' Hc Hspan.
    assert (Ho2 : o2 = o + len).
    { subst exons post. rewrite app_cons_assoc in Ht.
      apply table_from_middle in Ht.
      rewrite table_length_app in Ht. unfold table_length at 2 in Ht.
      simpl in Ht. lia. }
    rewrite (Htwo _ _ _ _ Hc) by lia. unfold first.
    rewrite read_start_eq, piece_length_eq.
    destruct (Z.leb_spec (read_len + (pos - o)) len); [lia |].
    rewrite Z.add_0_l.
    replace (o2 - pos) with (len - (pos - o)) by lia.
    replace (pos + read_len - o2) with (read_len - (len - (pos - o))) by lia.
    reflexivity.
Qed.

(** *** Piece lengths *)

Lemma extend_lengths left exons idx read_len algn last a :
  Forall (fun r : exon_row => 0 <= snd r) exons ->
  extend left exons idx read_len algn last = Ok a ->
  Forall (fun p => 0 <= piece_length p) algn ->
  Forall (fun p => 0 <= piece_length p) a.
Proof.
  intros Hex. revert idx read_len algn last.
  induction left as [| left IH]; intros idx read_len algn last H Hl;
    simpl in H; destruct (Z.gtb_spec read_len 0); try discriminate;
    try (inversion H; subst; exact Hl).
  bind_inv H. destruct x as [[off gstart] len].
  eapply IH; [exact H |].
  apply Forall_app. split; [exact Hl |].
  constructor; [| constructor]. rewrite piece_length_eq.
  apply index_In in Hx. rewrite Forall_forall in Hex.
  specialize (Hex _ Hx). simpl in Hex.
  destruct (Z.leb_spec read_len len); lia.
Qed.

Lemma find_alignment_lengths read_len pos exons a :
  Forall (fun r : exon_row => 0 <= snd r) exons -> 0 <= read_len ->
  find_alignment read_len pos exons = Ok a ->
  Forall (fun p => 0 <= piece_length p) a.
Proof.
  intros Hex Hrl H. unfold find_alignment in H.
  bind_inv H. bind_inv H. destruct x0 as [[off gstart] len].
  apply find_start_location_holds in Hx.
  destruct Hx as [o [g [l [Hrow Hb]]]]. rewrite Hrow in Hx0.
  inversion Hx0; subst o g l.
  eapply extend_lengths; [exact Hex | exact H |].
  constructor; [| constructor]. rewrite piece_length_eq.
  destruct (Z.leb_spec (read_len + (pos - off)) len); lia.
Qed.

(** *** The transcriptome the notebook builds is well formed *)

Lemma slice_length {A : Type} (l : list A) (a b : Z) :
  0 <= a -> a <= b -> b <= Z.of_nat (length l) ->
  Z.of_nat (length (slice l a b)) = b - a.
Proof.
  intros Ha Hab Hb. unfold slice, clip.
  destruct (Z.ltb_spec a 0); [lia |]. destruct (Z.ltb_spec b 0); [lia |].
  rewrite length_firstn, length_skipn. lia.
Qed.

Lemma table_from_snoc off rows o g len :
  table_from off rows -> o = off + table_length rows -> 0 < len ->
  table_from off (rows ++ [(o, g, len)]).
Proof.
  revert off. induction rows as [| [[o1 g1] l1] rows IH]; intros off Ht Ho Hl.
  - unfold table_length in Ho. simpl in *. repeat split; lia.
  - destruct Ht as [Ho1 [Hl1 Ht]]. rewrite table_length_cons in Ho.
    simpl snd in Ho. simpl. split; [exact Ho1 |]. split; [exact Hl1 |].
    apply IH; [exact Ht | lia | exact Hl].
Qed.

Lemma add_exons_well_formed genome_sequence exons_left :
  forall isoform exons total_len,
    Forall (exon_in genome_sequence) exons_left ->
    table_from 0 exons -> table_length exons = total_len ->
    Z.of_nat (length isoform) = total_len ->
    let e := add_exons genome_sequence exons_left isoform exons total_len in
    table_from 0 (snd e) /\ Z.of_nat (length (fst e)) = table_length (snd e)
    /\ (exons_left <> [] \/ exons <> [] -> snd e <> []).
Proof.
  induction exons_left as [| ex rest IH]; intros isoform exons total_len
    Hin Ht Hlen Hiso; simpl.
  - split; [exact Ht |]. split; [lia |]. intros [H | H]; [congruence | exact H].
  - inversion Hin as [| ? ? [H0 [Hlt Hend]] Hrest]; subst.
    destruct (IH (isoform ++ slice genome_sequence (exon_start ex) (exon_end ex))
                (exons ++ [(table_length exons, exon_start ex,
                            exon_end ex - exon_start ex)])
                (table_length exons + (exon_end ex - exon_start ex)) Hrest)
      as [H1 [H2 H3]].
    + apply table_from_snoc; [exact Ht | lia | lia].
    + rewrite table_length_app. unfold table_length at 2. simpl. lia.
    + rewrite length_app, Nat2Z.inj_add, slice_length by lia. lia.
    + split; [exact H1 |]. split; [exact H2 |]. intros _. apply H3. right.
      intros Habs. apply app_eq_nil in Habs. destruct Habs as [_ Habs].
      discriminate.
Qed.

Lemma build_entry_well_formed genome_sequence iso :
  isoform_exons iso <> [] ->
  Forall (exon_in genome_sequence) (isoform_exons iso) ->
  well_formed (build_entry genome_sequence iso).
Proof.
  intros Hne Hin. unfold build_entry, well_formed.
  destruct (add_exons_well_formed genome_sequence (isoform_exons iso) [] [] 0 Hin)
    as [H1 [H2 H3]]; try reflexivity; try exact I.
  split; [apply H3; left; exact Hne |]. split; assumption.
Qed.

Lemma build_transcriptome_well_formed genome_sequence genes :
  Forall (fun gene =>
            Forall (fun iso => isoform_exons iso <> []
                               /\ Forall (exon_in genome_sequence)
                                    (isoform_exons iso))
                   (gene_isoforms gene))
         genes ->
  Forall well_formed (isoforms_of (build_transcriptome genome_sequence genes)).
Proof.
  induction genes as [| gene genes IH]; intros H; [constructor |].
  inversion H as [| ? ? Hgene Hrest]; subst.
  unfold isoforms_of. simpl. apply Forall_app. split; [| apply IH, Hrest].
  rewrite map_map. simpl. apply Forall_map.
  eapply Forall_impl; [| exact Hgene]. simpl.
  intros iso [Hne Hin]. apply build_entry_well_formed; assumption.
Qed.

(** *** One isoform, then all of them *)

Section Align.

Variable MAX : nat.

Lemma align_to_isoform_result read isoform exons r :
  align_to_isoform MAX read isoform exons = Ok r ->
  match r with
  | NoMatch => forall i m, occurs_at read isoform i m -> (MAX < m)%nat
  | Found a m =>
      exists i,
        occurs_at read isoform i m /\ (m <= MAX)%nat
        /\ (forall i' m', occurs_at read isoform i' m' -> (m <= m')%nat)
        /\ (forall i' m', occurs_at read isoform i' m' -> (i' < i)%nat ->
              (m < m')%nat)
        /\ find_alignment (Z.of_nat (length read)) (Z.of_nat i) exons = Ok a
  end.
Proof.
  unfold align_to_isoform. intros H.
  destruct (scan_result MAX read isoform) as [best [Hscan Hbest]].
  rewrite Hscan in H. cbn [bind] in H.
  destruct best as [[i m] |].
  - bind_inv H. inversion H; subst.
    exists i. destruct Hbest as [H1 [H2 [H3 H4]]].
    split; [exact H1 |]. split; [exact H2 |]. split; [exact H3 |].
    split; [exact H4 | exact Hx].
  - inversion H; subst r. exact Hbest.
Qed.

Lemma align_to_isoform_none read isoform exons :
  (forall i m, occurs_at read isoform i m -> (MAX < m)%nat) ->
  align_to_isoform MAX read isoform exons = Ok NoMatch.
Proof.
  intros Hnone. unfold align_to_isoform.
  destruct (scan_result MAX read isoform) as [best [Hscan Hbest]].
  rewrite Hscan. cbn [bind].
  destruct best as [[i m] |]; [| reflexivity].
  destruct Hbest as [Hocc [Hm _]]. specialize (Hnone _ _ Hocc). lia.
Qed.

Lemma table_length_pos off exons :
  table_from off exons -> exons <> [] -> 0 < table_length exons.
Proof.
  intros Ht Hne. destruct exons as [| [[o g] len] exons]; [congruence |].
  assert (Hrow : nth_error ((o, g, len) :: exons) 0 = Some (o, g, len))
    by reflexivity.
  destruct (table_row_bounds _ _ _ _ _ _ Ht Hrow) as [H1 [H2 H3]]. lia.
Qed.

(** On an entry built by the notebook the call returns, and a match comes
    with the alignment of its window. *)
Lemma align_to_isoform_well_formed read isoform exons :
  well_formed (isoform, exons) ->
  exists r,
    align_to_isoform MAX read isoform exons = Ok r
    /\ match r with
       | NoMatch => True
       | Found a m =>
           total_length a = Z.of_nat (length read)
           /\ exists i,
                occurs_at read isoform i m
                /\ find_alignment (Z.of_nat (length read)) (Z.of_nat i) exons
                   = Ok a
       end.
Proof.
  intros [Hne [Ht Hlen]]. simpl in Hne, Ht, Hlen.
  unfold align_to_isoform.
  destruct (scan_result MAX read isoform) as [best [Hscan Hbest]].
  rewrite Hscan. cbn [bind].
  destruct best as [[i m] |]; [| exists NoMatch; split; [reflexivity | exact I]].
  destruct Hbest as [[Hfit Hc] [Hm [_ Hfirst]]].
  assert (Hi : 0 <= Z.of_nat i < table_length exons).
  { split; [lia |].
    destruct read as [| c read]; [| simpl in Hfit; lia].
    destruct i as [| i]; [simpl; eapply table_length_pos; eauto |].
    assert (Hz : occurs_at [] isoform 0 0) by (split; [simpl; lia | reflexivity]).
    assert (count_at [] isoform (S i) = 0%nat)
      by (unfold count_at; reflexivity).
    specialize (Hfirst _ _ Hz). lia. }
  destruct (table_row_exists 0 exons (Z.of_nat i) Ht) as [j [o [g [len [Hj Hb]]]]];
    [lia |].
  destruct (nth_error_split _ _ Hj) as [pre [post [Hex Hpre]]].
  destruct (find_alignment_covers exons pre o g len post (Z.of_nat i)
              (Z.of_nat (length read)) Ht Hex Hb)
    as [a [Ha [Htot _]]]; [lia | lia |].
  rewrite Ha. cbn [bind]. eexists. split; [reflexivity |].
  split; [exact Htot |]. exists i. split; [split; assumption | exact Ha].
Qed.

Lemma over_isoforms_entries read isos best :
  over_isoforms MAX read isos best = over_entries MAX read (map snd isos) best.
Proof.
  revert best. induction isos as [| [k [isoform exons]] isos IH]; intros best.
  - reflexivity.
  - simpl. destruct (align_to_isoform MAX read isoform exons); simpl;
      [apply IH | reflexivity | reflexivity].
Qed.

Lemma over_entries_app read l1 l2 best :
  over_entries MAX read (l1 ++ l2) best
  = (b <- over_entries MAX read l1 best ;; over_entries MAX read l2 b).
Proof.
  revert best. induction l1 as [| [isoform exons] l1 IH]; intros best.
  - reflexivity.
  - simpl. destruct (align_to_isoform MAX read isoform exons); simpl;
      [apply IH | reflexivity | reflexivity].
Qed.

Lemma over_genes_entries read t best :
  over_genes MAX read t best = over_entries MAX read (isoforms_of t) best.
Proof.
  revert best. induction t as [| [g isos] t IH]; intros best.
  - reflexivity.
  - simpl. unfold isoforms_of in *. simpl. rewrite over_entries_app.
    rewrite over_isoforms_entries.
    destruct (over_entries MAX read (map snd isos) best); simpl;
      [apply IH | reflexivity | reflexivity].
Qed.

Lemma align_to_transcriptome_entries read t :
  align_to_transcriptome MAX read t = over_entries MAX read (isoforms_of t) NoMatch.
Proof. apply over_genes_entries. Qed.

(** The result is the starting value or what some isoform returned. *)
Lemma over_entries_source read l best r :
  over_entries MAX read l best = Ok r ->
  r = best
  \/ exists e, In e l /\ align_to_isoform MAX read (fst e) (snd e) = Ok r.
Proof.
  revert best. induction l as [| [isoform exons] l IH]; intros best H.
  - inversion H. left. reflexivity.
  - simpl in H. bind_inv H. apply IH in H.
    destruct H as [H | [e [He Hr]]].
    + destruct (replaces x best).
      * right. exists (isoform, exons). split; [left; reflexivity |].
        subst r. exact Hx.
      * left. exact H.
    + right. exists e. split; [right; exact He | exact Hr].
Qed.

(** A running best that no later isoform matches or beats stays. *)
Lemma over_entries_stays read l a m :
  all_align MAX read (more_than m) l ->
  over_entries MAX read l (Found a m) = Ok (Found a m).
Proof.
  induction l as [| [isoform exons] l IH]; intros Hl.
  - reflexivity.
  - inversion Hl as [| ? ? [r [Hr Hw]] Hl']; subst. simpl in Hr.
    simpl. rewrite Hr. cbn [bind].
    replace (replaces r (Found a m)) with false; [apply IH, Hl' |].
    destruct r as [| a' m']; [reflexivity |]. simpl in *.
    symmetry. apply Nat.leb_gt. exact Hw.
Qed.

(** An isoform that is no worse than everything before it takes over. *)
Lemma over_entries_takes_over read pre (e : entry) a m best :
  all_align MAX read (at_least m) pre ->
  at_least m best ->
  align_to_isoform MAX read (fst e) (snd e) = Ok (Found a m) ->
  over_entries MAX read (pre ++ [e]) best = Ok (Found a m).
Proof.
  revert best. induction pre as [| [iso1 ex1] pre IH]; intros best Hpre Hbest He.
  - destruct e as [isoform exons]. simpl in *. rewrite He. cbn [bind].
    replace (replaces (Found a m) best) with true; [reflexivity |].
    destruct best as [| a0 m0]; [reflexivity |]. simpl in *.
    symmetry. apply Nat.leb_le. exact Hbest.
  - inversion Hpre as [| ? ? [r [Hr Hw]] Hpre']; subst. simpl in Hr.
    simpl. rewrite Hr. cbn [bind]. apply IH; [exact Hpre' | | exact He].
    destruct (replaces r best); assumption.
Qed.

(** When every isoform aligns without raising, so does the transcriptome,
    to a result no isoform beats. *)
Lemma over_entries_least read l :
  forall best,
    all_align MAX read (fun _ => True) l ->
    exists r,
      over_entries MAX read l best = Ok r
      /\ (forall a m, best = Found a m -> at_least_as_good r m)
      /\ (forall e a m, In e l ->
            align_to_isoform MAX read (fst e) (snd e) = Ok (Found a m) ->
            at_least_as_good r m).
Proof.
  induction l as [| [isoform exons] l IH]; intros best Hl.
  - exists best. split; [reflexivity |]. split.
    + intros a m ->. simpl. lia.
    + intros e a m [].
  - inversion Hl as [| ? ? [r [Hr _]] Hl']; subst. simpl in Hr.
    simpl. rewrite Hr. cbn [bind].
    destruct (IH (if replaces r best then r else best) Hl') as [r' [Hr' [Hb Hall]]].
    exists r'. split; [exact Hr' |]. split.
    + intros a m ->.
      destruct r as [| a1 m1]; simpl in Hb; [eapply Hb; reflexivity |].
      destruct (Nat.leb_spec m1 m).
      * specialize (Hb _ _ eq_refl).
        destruct r' as [| a2 m2]; simpl in *; [exact Hb | lia].
      * eapply Hb; reflexivity.
    + intros e a m [He | He] Ha.
      * subst e. simpl in Ha. rewrite Hr in Ha. inversion Ha; subst r.
        destruct best as [| a0 m0]; simpl in Hb.
        -- eapply Hb; reflexivity.
        -- destruct (Nat.leb_spec m m0).
           ++ eapply Hb; reflexivity.
           ++ specialize (Hb _ _ eq_refl).
              destruct r' as [| a2 m2]; simpl in *; [exact Hb | lia].
      * eapply Hall; eauto.
Qed.

End Align.

(** *** The claims on the transcriptome aligner *)

(** C1, as the specification states it: among isoforms that tie on the
    fewest mismatches the first one visited would be returned.  It is not:
    the read below occurs verbatim in both isoforms and the alignment
    returned is the one of the second. *)
Lemma first_tie_not_kept :
  ~ first_tie_kept 6 Examples.junction_read Examples.two_genes.
Proof.
  intros H.
  specialize (H [] Examples.two_exons [Examples.one_exon]
                [(0, 101, 3); (3, 200, 2)] 0%nat).
  assert (E : align_to_transcriptome 6 Examples.junction_read Examples.two_genes
              = Ok (Found [(0, 101, 3); (3, 200, 2)] 0)).
  { apply H.
    - reflexivity.
    - vm_compute. reflexivity.
    - constructor.
    - constructor; [| constructor].
      exists (Found [(0, 502, 5)] 0). split; [vm_compute; reflexivity | simpl; lia]. }
  vm_compute in E. discriminate E.
Qed.

(** C1, amended: among the isoforms that tie on the fewest mismatches the
    one visited last (genes in order, then the isoforms of each gene) gives
    the result; a later isoform with an equal count replaces the current
    best. *)
Theorem last_tie_kept (MAX : nat) (read : str) (t : transcriptome)
    (pre : list entry) (e : entry) (post : list entry)
    (a : alignment) (m : nat) :
  isoforms_of t = pre ++ e :: post ->
  align_to_isoform MAX read (fst e) (snd e) = Ok (Found a m) ->
  all_align MAX read (at_least m) pre ->
  all_align MAX read (more_than m) post ->
  align_to_transcriptome MAX read t = Ok (Found a m).
Proof.
  intros Hsplit He Hpre Hpost.
  rewrite align_to_transcriptome_entries, Hsplit, app_cons_assoc.
  rewrite over_entries_app.
  rewrite (over_entries_takes_over MAX read pre e a m NoMatch Hpre I He).
  cbn [bind]. apply over_entries_stays, Hpost.
Qed.

Lemma last_tie_kept_witness :
  align_to_transcriptome 6 Examples.junction_read Examples.two_genes
  = Ok (Found [(0, 502, 5)] 0).
Proof.
  apply (last_tie_kept 6 Examples.junction_read Examples.two_genes
           [Examples.two_exons] Examples.one_exon []).
  - reflexivity.
  - vm_compute. reflexivity.
  - constructor; [| constructor].
    exists (Found [(0, 101, 3); (3, 200, 2)] 0).
    split; [vm_compute; reflexivity | simpl; lia].
  - constructor.
Defined.

(** C4: a read that occurs verbatim in the exon sequence of some isoform
    of a transcriptome built by the notebook is aligned with 0 mismatches;
    the lengths of the pieces sum to the read length; the alignment
    returned is the one find_alignment gives for a window [i] of an
    isoform [e] that holds the read verbatim; and when that window starts
    in one exon and ends in the next, there are two pieces, the first
    ending where the first exon ends and the second starting at the start
    of the second exon. *)
Theorem verbatim_read_aligns (MAX : nat) (read : str) (t : transcriptome) :
  Forall well_formed (isoforms_of t) ->
  (exists e i, In e (isoforms_of t) /\ occurs_at read (fst e) i 0) ->
  exists a e i,
    align_to_transcriptome MAX read t = Ok (Found a 0)
    /\ total_length a = Z.of_nat (length read)
    /\ In e (isoforms_of t) /\ occurs_at read (fst e) i 0
    /\ find_alignment (Z.of_nat (length read)) (Z.of_nat i) (snd e) = Ok a
    /\ forall pre o1 g1 l1 o2 g2 l2 post,
         snd e = pre ++ (o1, g1, l1) :: (o2, g2, l2) :: post ->
         o1 <= Z.of_nat i < o1 + l1 ->
         o2 < Z.of_nat i + Z.of_nat (length read) <= o2 + l2 ->
         a = [(0, g1 + (Z.of_nat i - o1), o1 + l1 - Z.of_nat i);
              (o1 + l1 - Z.of_nat i, g2,
               Z.of_nat i + Z.of_nat (length read) - (o1 + l1))].
Proof.
  intros Hwf [e0 [i0 [Hin0 Hocc0]]].
  assert (Hall : all_align MAX read (fun _ => True) (isoforms_of t)).
  { unfold all_align. rewrite Forall_forall in *. intros [isoform exons] He.
    destruct (align_to_isoform_well_formed MAX read isoform exons (Hwf _ He))
      as [r [Hr _]].
    exists r. split; [exact Hr | exact I]. }
  destruct (over_entries_least MAX read (isoforms_of t) NoMatch Hall)
    as [r [Hr [_ Hleast]]].
  (* the isoform that holds the read verbatim aligns with 0 mismatches *)
  assert (Hzero : at_least_as_good r 0).
  { unfold all_align in Hall. rewrite Forall_forall in Hall.
    destruct (Hall _ Hin0) as [r0 [Hr0 _]].
    pose proof (align_to_isoform_result MAX read _ _ _ Hr0) as Hres.
    destruct r0 as [| a0 m0].
    - specialize (Hres _ _ Hocc0). lia.
    - destruct Hres as [j [_ [_ [Hmin _]]]].
      specialize (Hmin _ _ Hocc0).
      assert (m0 = 0%nat) by lia. subst m0.
      eapply Hleast; eauto. }
  destruct r as [| a m]; [contradiction |]. simpl in Hzero.
  assert (m = 0%nat) by lia. subst m.
  destruct (over_entries_source MAX read _ _ _ Hr) as [Habs | [e [He Hre]]];
    [discriminate |].
  destruct (align_to_isoform_result MAX read _ _ _ Hre)
    as [i [Hocc [_ [_ [_ Hfa]]]]].
  rewrite Forall_forall in Hwf. pose proof (Hwf _ He) as Hwe.
  destruct e as [isoform exons].
  destruct (align_to_isoform_well_formed MAX read isoform exons Hwe)
    as [r1 [Hr1 Htot]].
  simpl in Hre. rewrite Hre in Hr1. inversion Hr1; subst r1.
  destruct Htot as [Htot _].
  exists a, (isoform, exons), i.
  split; [rewrite align_to_transcriptome_entries; exact Hr |].
  split; [exact Htot |]. split; [exact He |]. split; [exact Hocc |].
  split; [exact Hfa |].
  intros pre o1 g1 l1 o2 g2 l2 post Hsplit Hstart Hend.
  destruct Hwe as [_ [Ht Hlen]]. simpl in Ht, Hlen, Hsplit, Hfa.
  destruct Hocc as [Hfit _]. simpl in Hfit.
  destruct (find_alignment_covers exons pre o1 g1 l1 ((o2, g2, l2) :: post)
              (Z.of_nat i) (Z.of_nat (length read)) Ht Hsplit Hstart)
    as [a' [Ha' [_ [_ Htwo]]]]; [lia | lia |].
  rewrite Hfa in Ha'. inversion Ha'; subst a'.
  assert (Ho2 : o2 = o1 + l1).
  { pose proof Ht as Ht1. rewrite Hsplit in Ht1.
    pose proof (table_from_middle _ _ _ _ _ _ Ht1) as Hm1.
    rewrite app_cons_assoc in Ht1. apply table_from_middle in Ht1.
    rewrite table_length_app in Ht1. unfold table_length at 2 in Ht1.
    simpl in Ht1. lia. }
  rewrite (Htwo _ _ _ _ eq_refl Hend). subst o2. reflexivity.
Qed.

Lemma verbatim_read_aligns_witness :
  align_to_transcriptome 6 Examples.junction_read Examples.junction_last
  = Ok (Found [(0, 101, 3); (3, 200, 2)] 0)
  /\ exists a e i,
       align_to_transcriptome 6 Examples.junction_read Examples.junction_last
       = Ok (Found a 0)
       /\ total_length a = Z.of_nat (length Examples.junction_read)
       /\ In e (isoforms_of Examples.junction_last)
       /\ occurs_at Examples.junction_read (fst e) i 0
       /\ find_alignment (Z.of_nat (length Examples.junction_read))
            (Z.of_nat i) (snd e) = Ok a
       /\ forall pre o1 g1 l1 o2 g2 l2 post,
            snd e = pre ++ (o1, g1, l1) :: (o2, g2, l2) :: post ->
            o1 <= Z.of_nat i < o1 + l1 ->
            o2 < Z.of_nat i + Z.of_nat (length Examples.junction_read)
            <= o2 + l2 ->
            a = [(0, g1 + (Z.of_nat i - o1), o1 + l1 - Z.of_nat i);
                 (o1 + l1 - Z.of_nat i, g2,
                  Z.of_nat i + Z.of_nat (length Examples.junction_read)
                  - (o1 + l1))].
Proof.
  split; [vm_compute; reflexivity |].
  apply (verbatim_read_aligns 6 Examples.junction_read Examples.junction_last).
  - repeat constructor; simpl; try lia; discriminate.
  - exists Examples.two_exons, 1%nat.
    split; [right; left; reflexivity |]. split; [simpl; lia | reflexivity].
Defined.

(** C5: every alignment returned by align_to_transcriptome (they are all
    built by find_alignment) has its pieces in order: each piece starts at
    or after the end of the one before it in the read, and, the exons
    having [end >= start] as the data model requires, the pieces are sorted
    by read_start. *)
Theorem alignment_pieces_ordered (MAX : nat) (read : str) (t : transcriptome)
    (a : alignment) (m : nat) :
  Forall (fun e : entry => Forall (fun r : exon_row => 0 <= snd r) (snd e))
    (isoforms_of t) ->
  align_to_transcriptome MAX read t = Ok (Found a m) ->
  (forall i p q,
     nth_error a i = Some p -> nth_error a (S i) = Some q ->
     read_start q >= read_start p + piece_length p)
  /\ StronglySorted Z.le (map read_start a).
Proof.
  intros Hlen H. rewrite align_to_transcriptome_entries in H.
  destruct (over_entries_source MAX read _ _ _ H) as [Habs | [e [He Hr]]];
    [discriminate |].
  destruct (align_to_isoform_result MAX read _ _ _ Hr) as [i [_ [_ [_ [_ Hfa]]]]].
  pose proof (find_alignment_chained _ _ _ _ Hfa) as Hc.
  rewrite Forall_forall in Hlen.
  pose proof (find_alignment_lengths _ _ _ _ (Hlen _ He) (Nat2Z.is_nonneg _) Hfa)
    as Hl.
  split.
  - intros j p q Hp Hq.
    rewrite (chained_consecutive a 0 j p q Hc Hp Hq). lia.
  - apply (chained_nonneg_sorted a 0 Hc Hl).
Qed.

Lemma alignment_pieces_ordered_witness :
  (forall i p q,
     nth_error [(0, 101, 3); (3, 200, 2)] i = Some p ->
     nth_error [(0, 101, 3); (3, 200, 2)] (S i) = Some q ->
     read_start q >= read_start p + piece_length p)
  /\ StronglySorted Z.le (map read_start [(0, 101, 3); (3, 200, 2)]).
Proof.
  apply (alignment_pieces_ordered 6 Examples.junction_read Examples.one_gene
           [(0, 101, 3); (3, 200, 2)] 0).
  - repeat constructor; simpl; lia.
  - vm_compute. reflexivity.
Defined.

(** C8: when no isoform holds the read at any offset with at most
    MAX_NUM_MISMATCHES mismatches, align_to_transcriptome returns the
    no-match pair and raises nothing; and whenever it returns an alignment
    the mismatch count that comes with it is at most the ceiling. *)
Theorem no_match_is_reported (MAX : nat) (read : str) (t : transcriptome) :
  ((forall e i m,
      In e (isoforms_of t) -> occurs_at read (fst e) i m -> (MAX < m)%nat) ->
   align_to_transcriptome MAX read t = Ok NoMatch)
  /\ (forall a m,
        align_to_transcriptome MAX read t = Ok (Found a m) -> (m <= MAX)%nat).
Proof.
  rewrite align_to_transcriptome_entries. split.
  - intros Hnone.
    assert (Hstay : forall l, incl l (isoforms_of t) ->
                      over_entries MAX read l NoMatch = Ok NoMatch).
    { induction l as [| [isoform exons] l IH]; intros Hincl; [reflexivity |].
      simpl. rewrite align_to_isoform_none.
      - cbn [bind replaces]. apply IH. intros x Hx. apply Hincl. right. exact Hx.
      - intros i m Hocc.
        apply (Hnone (isoform, exons) i m); [apply Hincl; left; reflexivity |].
        exact Hocc. }
    apply Hstay, incl_refl.
  - intros a m H.
    destruct (over_entries_source MAX read _ _ _ H) as [Habs | [e [He Hr]]];
      [discriminate |].
    destruct (align_to_isoform_result MAX read _ _ _ Hr) as [i [_ [Hm _]]].
    exact Hm.
Qed.

Lemma no_match_is_reported_witness :
  align_to_transcriptome 1 Examples.foreign_read Examples.two_genes = Ok NoMatch
  /\ (0 <= 1)%nat.
Proof.
  split.
  - apply (proj1 (no_match_is_reported 1 Examples.foreign_read Examples.two_genes)).
    intros e i m Hin [Hfit Hc].
    destruct Hin as [<- | [<- | []]]; simpl in Hfit;
      (destruct i as [| [| [| [| i]]]]; [| | | | lia]);
      subst m; vm_compute; lia.
  - apply (proj2 (no_match_is_reported 1 Examples.junction_read Examples.two_genes)
             [(0, 502, 5)] 0%nat).
    vm_compute. reflexivity.
Defined.

(** C9: every alignment produced by find_alignment is contiguous in the
    read: it has a first piece, whose read_start is 0, and each later piece
    starts exactly where the piece before it ends. *)
Theorem find_alignment_contiguous (read_len align_start : Z)
    (exons : list exon_row) (a : alignment) :
  find_alignment read_len align_start exons = Ok a ->
  (exists p rest, a = p :: rest /\ read_start p = 0)
  /\ forall i p q,
       nth_error a i = Some p -> nth_error a (S i) = Some q ->
       read_start q = read_start p + piece_length p.
Proof.
  intros H. pose proof (find_alignment_chained _ _ _ _ H) as Hc. split.
  - unfold find_alignment in H. bind_inv H. bind_inv H.
    destruct x0 as [[off gstart] len].
    apply extend_prefix in H. destruct H as [more ->].
    eexists. exists more. split; [reflexivity | reflexivity].
  - intros i p q. apply chained_consecutive with (start := 0). exact Hc.
Qed.

Lemma find_alignment_contiguous_witness :
  (exists p rest, [(0, 101, 3); (3, 200, 2)] = p :: rest /\ read_start p = 0)
  /\ forall i p q,
       nth_error [(0, 101, 3); (3, 200, 2)] i = Some p ->
       nth_error [(0, 101, 3); (3, 200, 2)] (S i) = Some q ->
       read_start q = read_start p + piece_length p.
Proof.
  apply (find_alignment_contiguous 5 1 (snd Examples.two_exons)).
  vm_compute. reflexivity.
Defined.

(** C10: for a read strictly longer than the isoform's exon sequence the
    range of offsets is empty and align_to_isoform returns the no-match
    pair; nothing raises, so the isoform is never indexed out of bounds. *)
Theorem longer_read_no_match (MAX : nat) (read isoform : str)
    (exons : list exon_row) :
  (length isoform < length read)%nat ->
  range (Z.of_nat (length isoform) - Z.of_nat (length read) + 1) = []
  /\ align_to_isoform MAX read isoform exons = Ok NoMatch.
Proof.
  intros Hlong.
  assert (E : range (Z.of_nat (length isoform) - Z.of_nat (length read) + 1) = []).
  { unfold range.
    replace (Z.to_nat (Z.of_nat (length isoform) - Z.of_nat (length read) + 1))
      with 0%nat by lia.
    reflexivity. }
  split; [exact E |]. unfold align_to_isoform. rewrite E. reflexivity.
Qed.

Lemma longer_read_no_match_witness :
  range (Z.of_nat (length (chars "ACG")) - Z.of_nat (length (chars "ACGTA")) + 1)
  = []
  /\ align_to_isoform 6 (chars "ACGTA") (chars "ACG") [(0, 100, 3)] = Ok NoMatch.
Proof.
  apply (longer_read_no_match 6 (chars "ACGTA") (chars "ACG") [(0, 100, 3)]).
  simpl. lia.
Defined.

End TranscriptomeFacts.

Module SeedsFacts.
Import Seeds.

Section Index.

Variable sa : list Z.
Variable exact_suffix_matches : str -> (Z * Z) * Z.

(** *** The loop over the possible changes *)

(** The loop leaves the best as it was, or replaces it by a longer match
    with one mismatch more than [misses]; and in the end the best is at
    least as long as every candidate tried. *)
Lemma try_changes_spec read_sequence len_read length misses changes :
  forall max_so_far updated best updated',
    try_changes exact_suffix_matches read_sequence len_read length misses
      changes max_so_far updated = (best, updated') ->
    cand_length max_so_far <= cand_length best
    /\ ((best = max_so_far /\ updated' = updated)
        \/ (cand_misses best = misses + 1 /\ updated' = true))
    /\ forall b, In b changes ->
         snd (exact_suffix_matches
                (replace_base_at_index read_sequence (len_read - length - 1) b))
         <= cand_length best.
Proof.
  induction changes as [| change rest IH]; intros c u best u' H; simpl in H.
  - inversion H; subst. split; [lia |]. split; [left; split; reflexivity |].
    intros b [].
  - destruct (exact_suffix_matches
                (replace_base_at_index read_sequence (len_read - length - 1) change))
      as [new_range new_length] eqn:E.
    destruct (Z.gtb_spec new_length (cand_length c)) as [Hgt | Hle].
    + apply IH in H. destruct H as [Hlen [Hcase Hmax]].
      unfold cand_length at 1 in Hlen. simpl in Hlen.
      split; [lia |]. split.
      * right. destruct Hcase as [[-> ->] | Hc]; [split; reflexivity | exact Hc].
      * intros b [<- | Hb]; [rewrite E; simpl; lia | apply Hmax, Hb].
    + apply IH in H. destruct H as [Hlen [Hcase Hmax]].
      split; [exact Hlen |]. split; [exact Hcase |].
      intros b [<- | Hb]; [rewrite E; simpl; lia | apply Hmax, Hb].
Qed.

(** *** The while loop *)

Lemma improve_round rounds read_sequence len_read length mismatches max_so_far
    updated :
  improve exact_suffix_matches (S rounds) read_sequence len_read length
    mismatches max_so_far updated
  = if (cand_misses max_so_far <? mismatches)
       && (cand_length max_so_far <? len_read) && updated
    then
      observed <- index (cand_read max_so_far)
                    (len_read - cand_length max_so_far - 1) ;;
      let '(best, updated') :=
        try_changes exact_suffix_matches read_sequence len_read length
          (cand_misses max_so_far)
          (filter (fun b => negb (Ascii.eqb b observed)) BASES)
          max_so_far false in
      improve exact_suffix_matches rounds read_sequence len_read length
        mismatches best updated'
    else Ok max_so_far.
Proof. reflexivity. Qed.

Lemma improve_no_round read_sequence len_read length mismatches max_so_far
    updated :
  improve exact_suffix_matches 0 read_sequence len_read length
    mismatches max_so_far updated
  = if (cand_misses max_so_far <? mismatches)
       && (cand_length max_so_far <? len_read) && updated
    then Diverges else Ok max_so_far.
Proof. reflexivity. Qed.

Lemma improve_stops rounds read_sequence len_read length mismatches max_so_far :
  improve exact_suffix_matches rounds read_sequence len_read length mismatches
    max_so_far false = Ok max_so_far.
Proof.
  destruct rounds; simpl; rewrite andb_false_r; reflexivity.
Qed.

(** The count of the best is never above the budget it started under. *)
Lemma improve_misses rounds read_sequence len_read length mismatches :
  forall max_so_far updated best,
    improve exact_suffix_matches rounds read_sequence len_read length
      mismatches max_so_far updated = Ok best ->
    cand_misses max_so_far <= cand_misses best
    /\ cand_misses best <= Z.max (cand_misses max_so_far) mismatches.
Proof.
  induction rounds as [| rounds IH]; intros c u best H; simpl in H.
  - destruct ((cand_misses c <? mismatches) && (cand_length c <? len_read) && u);
      [discriminate |].
    inversion H; subst. lia.
  - destruct ((cand_misses c <? mismatches) && (cand_length c <? len_read) && u)
      eqn:Hguard.
    + apply andb_prop in Hguard. destruct Hguard as [Hguard _].
      apply andb_prop in Hguard. destruct Hguard as [Hlt _].
      apply Z.ltb_lt in Hlt.
      bind_inv H.
      destruct (try_changes exact_suffix_matches read_sequence len_read length
                  (cand_misses c) _ c false) as [c1 u1] eqn:Htry.
      apply try_changes_spec in Htry. destruct Htry as [_ [Hcase _]].
      apply IH in H.
      destruct Hcase as [[-> _] | [Hm _]]; lia.
    + inversion H; subst. lia.
Qed.

(** With as many rounds as the budget allows mismatches the loop always
    comes to its end. *)
Lemma improve_returns rounds read_sequence len_read length mismatches :
  forall max_so_far updated,
    (Z.to_nat (mismatches - cand_misses max_so_far) <= rounds)%nat ->
    improve exact_suffix_matches rounds read_sequence len_read length
      mismatches max_so_far updated <> Diverges.
Proof.
  induction rounds as [| rounds IH]; intros c u Hrounds; simpl.
  - destruct (Z.ltb_spec (cand_misses c) mismatches); simpl; [lia | discriminate].
  - destruct ((cand_misses c <? mismatches) && (cand_length c <? len_read) && u)
      eqn:Hguard; [| discriminate].
    apply andb_prop in Hguard. destruct Hguard as [Hguard _].
    apply andb_prop in Hguard. destruct Hguard as [Hlt _].
    apply Z.ltb_lt in Hlt.
    unfold index.
    destruct (py_index (cand_read c) (len_read - cand_length c - 1)) as [observed |];
      simpl; [| discriminate].
    destruct (try_changes exact_suffix_matches read_sequence len_read length
                (cand_misses c) _ c false) as [c1 u1] eqn:Htry.
    apply try_changes_spec in Htry. destruct Htry as [_ [Hcase _]].
    destruct Hcase as [[-> ->] | [Hm _]].
    + rewrite improve_stops. discriminate.
    + apply IH. lia.
Qed.


(** *** find_seeds *)

Lemma find_seeds_returns read_sequence mismatches k :
  find_seeds sa exact_suffix_matches read_sequence mismatches k <> Diverges.
Proof.
  revert read_sequence mismatches.
  induction k as [| k IH]; intros read_sequence mismatches; simpl;
    [discriminate |].
  destruct (exact_suffix_matches (rev read_sequence)) as [_range length].
  pose proof (improve_returns (Z.to_nat mismatches) (rev read_sequence)
                (Z.of_nat (List.length (rev read_sequence))) length mismatches
                (_range, length, rev read_sequence, 0) true) as Hret.
  destruct (improve _ _ _ _ _ _ _ _) as [best | |]; simpl; try discriminate.
  - unfold positions_of, index.
    destruct (py_index sa (fst (cand_range best))); simpl; [| discriminate].
    destruct (py_index sa (snd (cand_range best))); simpl; [| discriminate].
    destruct (_ =? _); [discriminate |].
    specialize (IH (slice_to (cand_read best)
                      (Z.of_nat (List.length (cand_read best)) - cand_length best))
                  (mismatches - cand_misses best)).
    destruct (find_seeds _ _ _ _ _); simpl; try discriminate. congruence.
  - exfalso. apply Hret; [| reflexivity].
    unfold cand_misses. simpl. lia.
Qed.

(** What one call does when it returns: it reports one seed, taken from the
    best candidate, and either stops there or goes on with one seed less
    and the budget lowered by the mismatches of that seed. *)
Lemma find_seeds_step read_sequence mismatches k seeds :
  find_seeds sa exact_suffix_matches read_sequence mismatches (S k) = Ok seeds ->
  exists best positions,
    improve exact_suffix_matches (Z.to_nat mismatches) (rev read_sequence)
      (Z.of_nat (List.length (rev read_sequence)))
      (snd (exact_suffix_matches (rev read_sequence))) mismatches
      (exact_suffix_matches (rev read_sequence), rev read_sequence, 0) true
    = Ok best
    /\ positions_of sa (cand_range best) = Ok positions
    /\ let first :=
         (positions, cand_length best, cand_misses best,
          slice_from (cand_read best)
            (Z.of_nat (List.length (rev read_sequence)) - cand_length best)) in
       (seeds = [first]
        /\ Z.of_nat (List.length (rev read_sequence)) = cand_length best)
       \/ (exists more,
             seeds = first :: more
             /\ Z.of_nat (List.length (rev read_sequence)) <> cand_length best
             /\ find_seeds sa exact_suffix_matches
                  (slice_to (cand_read best)
                     (Z.of_nat (List.length (cand_read best)) - cand_length best))
                  (mismatches - cand_misses best) k
                = Ok more).
Proof.
  intros H. simpl in H.
  destruct (exact_suffix_matches (rev read_sequence)) as [_range length] eqn:E.
  bind_inv H. bind_inv H. exists x, x0.
  split; [exact Hx |]. split; [exact Hx0 |].
  destruct (Z.eqb_spec (Z.of_nat (List.length (rev read_sequence))) (cand_length x))
    as [Heq | Hne].
  - left. inversion H. split; [reflexivity | exact Heq].
  - right. bind_inv H. inversion H. exists x1.
    split; [reflexivity |]. split; [exact Hne | exact Hx1].
Qed.

Lemma find_seeds_budget k :
  forall read_sequence mismatches seeds,
    0 <= mismatches ->
    find_seeds sa exact_suffix_matches read_sequence mismatches k = Ok seeds ->
    Forall (fun x => 0 <= seed_mismatches x <= mismatches) seeds
    /\ total_mismatches seeds <= mismatches
    /\ (List.length seeds <= k)%nat.
Proof.
  induction k as [| k IH]; intros read_sequence mismatches seeds Hm H.
  - inversion H; subst. split; [constructor |].
    unfold total_mismatches. simpl. split; lia.
  - apply find_seeds_step in H.
    destruct H as [best [positions [Hbest [_ Hcase]]]].
    apply improve_misses in Hbest.
    assert (Hb : 0 <= cand_misses best <= mismatches)
      by (unfold cand_misses in *; simpl in Hbest; lia).
    clear Hbest.
    destruct Hcase as [[-> _] | [more [-> [_ Hmore]]]].
    + split; [constructor; [| constructor] |].
      * unfold seed_mismatches. simpl. exact Hb.
      * unfold total_mismatches, seed_mismatches. simpl. split; lia.
    + apply IH in Hmore; [| lia]. destruct Hmore as [Hall [Htot Hlen]].
      split; [constructor |].
      * unfold seed_mismatches. simpl. exact Hb.
      * eapply Forall_impl; [| exact Hall]. simpl. intros x Hx. lia.
      * unfold total_mismatches in *. simpl.
        unfold seed_mismatches at 1. simpl. split; lia.
Qed.

(** *** The positions of a seed *)

Lemma positions_of_two _range positions :
  positions_of sa _range = Ok positions ->
  exists a b,
    positions = [a; b]
    /\ py_index sa (fst _range) = Some a /\ py_index sa (snd _range) = Some b.
Proof.
  unfold positions_of. intros H. bind_inv H. bind_inv H. inversion H.
  exists x, x0. split; [reflexivity |].
  split; apply index_Ok; assumption.
Qed.

Lemma find_seeds_two_positions k :
  forall read_sequence mismatches seeds,
    find_seeds sa exact_suffix_matches read_sequence mismatches k = Ok seeds ->
    Forall (fun x => List.length (seed_positions x) = 2%nat) seeds.
Proof.
  induction k as [| k IH]; intros read_sequence mismatches seeds H.
  - inversion H. constructor.
  - apply find_seeds_step in H.
    destruct H as [best [positions [_ [Hpos Hcase]]]].
    apply positions_of_two in Hpos. destruct Hpos as [a [b [-> _]]].
    destruct Hcase as [[-> _] | [more [-> [_ Hmore]]]].
    + constructor; [reflexivity | constructor].
    + constructor; [reflexivity | eapply IH; exact Hmore].
Qed.

(** *** The second round of the while loop *)

Lemma replace_same (read_sequence : str) (idx : Z) (x : ascii) :
  0 <= idx -> py_index read_sequence idx = Some x ->
  replace_base_at_index read_sequence idx x = read_sequence.
Proof.
  intros Hidx Hx. unfold py_index in Hx.
  destruct (Z.leb_spec 0 idx); [| lia].
  assert (Hlt : (Z.to_nat idx < List.length read_sequence)%nat)
    by (apply nth_error_Some; rewrite Hx; discriminate).
  unfold replace_base_at_index, slice_to, slice_from, clip.
  destruct (Z.ltb_spec idx 0); [lia |].
  destruct (Z.ltb_spec (idx + 1) 0); [lia |].
  replace (Nat.min (List.length read_sequence) (Z.to_nat idx))
    with (Z.to_nat idx) by lia.
  replace (Nat.min (List.length read_sequence) (Z.to_nat (idx + 1)))
    with (S (Z.to_nat idx)) by lia.
  rewrite <- (skipn_nth_cons _ _ _ Hx). apply firstn_skipn.
Qed.

Lemma try_changes_no_update read_sequence len_read length misses changes :
  forall max_so_far updated,
    (forall b, In b changes ->
       snd (exact_suffix_matches
              (replace_base_at_index read_sequence (len_read - length - 1) b))
       <= cand_length max_so_far) ->
    try_changes exact_suffix_matches read_sequence len_read length misses
      changes max_so_far updated = (max_so_far, updated).
Proof.
  induction changes as [| change rest IH]; intros c u Hall; simpl.
  - reflexivity.
  - pose proof (Hall change (or_introl eq_refl)) as Hc.
    destruct (exact_suffix_matches
                (replace_base_at_index read_sequence (len_read - length - 1) change))
      as [new_range new_length].
    simpl in Hc. destruct (Z.gtb_spec new_length (cand_length c)); [lia |].
    apply IH. intros b Hb. apply Hall. right. exact Hb.
Qed.

Lemma try_changes_kept read_sequence len_read length misses changes :
  forall max_so_far updated best updated',
    try_changes exact_suffix_matches read_sequence len_read length misses
      changes max_so_far updated = (best, updated') ->
    (best = max_so_far /\ updated' = updated)
    \/ (updated' = true /\ cand_length max_so_far < cand_length best
        /\ exists b,
             In b changes
             /\ best
                = (exact_suffix_matches
                     (replace_base_at_index read_sequence
                        (len_read - length - 1) b),
                   replace_base_at_index read_sequence (len_read - length - 1) b,
                   misses + 1)).
Proof.
  induction changes as [| change rest IH]; intros c u best u' H; simpl in H.
  - inversion H; subst. left. split; reflexivity.
  - destruct (exact_suffix_matches
                (replace_base_at_index read_sequence (len_read - length - 1) change))
      as [new_range new_length] eqn:E.
    destruct (Z.gtb_spec new_length (cand_length c)) as [Hgt | Hle].
    + apply IH in H. right.
      destruct H as [[-> ->] | [-> [Hlt [b [Hb ->]]]]].
      * split; [reflexivity |]. split; [exact Hgt |].
        exists change. split; [left; reflexivity |]. rewrite E. reflexivity.
      * split; [reflexivity |]. split.
        -- unfold cand_length at 1 in Hlt. simpl in Hlt. lia.
        -- exists b. split; [right; exact Hb | reflexivity].
    + apply IH in H.
      destruct H as [H | [-> [Hlt [b [Hb ->]]]]]; [left; exact H |].
      right. split; [reflexivity |]. split; [exact Hlt |].
      exists b. split; [right; exact Hb | reflexivity].
Qed.

Lemma replace_length (read_sequence : str) (idx : Z) (b : ascii) :
  0 <= idx < Z.of_nat (List.length read_sequence) ->
  List.length (replace_base_at_index read_sequence idx b)
  = List.length read_sequence.
Proof.
  intros Hidx. unfold replace_base_at_index, slice_to, slice_from, clip.
  destruct (Z.ltb_spec idx 0); [lia |].
  destruct (Z.ltb_spec (idx + 1) 0); [lia |].
  rewrite length_app. simpl. rewrite length_firstn, length_skipn. lia.
Qed.

Lemma py_index_bound {A : Type} (l : list A) (i : Z) (a : A) :
  py_index l i = Some a -> i < Z.of_nat (List.length l).
Proof.
  unfold py_index. destruct (Z.leb_spec 0 i) as [Hi | Hi]; intros Hl; [| lia].
  assert (Hlt : (Z.to_nat i < List.length l)%nat)
    by (apply nth_error_Some; rewrite Hl; discriminate).
  lia.
Qed.

(** What the while loop of find_seeds comes to.  Every round after the
    first tries the reads the first round tried, or the read unchanged, so
    the best is the exact match the loop started from, or that match with
    one symbol changed at the first unmatched position: the first of the
    changes that match longest. *)
Lemma improve_single_round rounds read_sequence mismatches best :
  let len_read := Z.of_nat (List.length read_sequence) in
  let length := snd (exact_suffix_matches read_sequence) in
  let idx := len_read - length - 1 in
  improve exact_suffix_matches rounds read_sequence len_read length mismatches
    (exact_suffix_matches read_sequence, read_sequence, 0) true = Ok best ->
  best = (exact_suffix_matches read_sequence, read_sequence, 0)
  \/ exists observed b,
       py_index read_sequence idx = Some observed /\ 0 <= idx
       /\ In b BASES /\ b <> observed
       /\ best
          = (exact_suffix_matches (replace_base_at_index read_sequence idx b),
             replace_base_at_index read_sequence idx b, 1)
       /\ length < cand_length best
       /\ forall b', In b' BASES ->
            snd (exact_suffix_matches
                   (replace_base_at_index read_sequence idx b'))
            <= cand_length best.
Proof.
  intros len_read length idx.
  set (c0 := (exact_suffix_matches read_sequence, read_sequence, 0)).
  assert (Hc0 : cand_length c0 = length /\ cand_read c0 = read_sequence
                /\ cand_misses c0 = 0).
  { unfold c0, cand_length, cand_read, cand_misses, length. simpl.
    destruct (exact_suffix_matches read_sequence); simpl. repeat split. }
  destruct Hc0 as [Hlen0 [Hread0 Hmiss0]].
  intros H. destruct rounds as [| rounds];
    [rewrite improve_no_round in H | rewrite improve_round in H].
  { destruct (_ && _ && true); [discriminate |]. injection H as <-.
    left. reflexivity. }
  destruct ((cand_misses c0 <? mismatches) && (cand_length c0 <? len_read) && true)
    eqn:Hguard; [| injection H as <-; left; reflexivity].
  rewrite andb_true_r in Hguard. apply andb_prop in Hguard.
  destruct Hguard as [_ Hshort]. apply Z.ltb_lt in Hshort.
  bind_inv H. rename x into observed. apply index_Ok in Hx.
  rewrite Hread0, Hlen0 in Hx. rewrite Hmiss0 in H. fold idx in Hx.
  destruct (try_changes exact_suffix_matches read_sequence len_read length 0
              (filter (fun b => negb (Ascii.eqb b observed)) BASES) c0 false)
    as [c1 u1] eqn:Htry.
  pose proof (try_changes_spec _ _ _ _ _ _ _ _ _ Htry) as [Hgrow [_ Hmax]].
  apply try_changes_kept in Htry. fold idx in Htry, Hmax.
  destruct Htry as [[E1 E2] | [E2 [Hlt [b [Hb E1]]]]]; rewrite E2 in H.
  { rewrite improve_stops in H. injection H as <-. left. exact E1. }
  (* the second round changes nothing *)
  assert (Hall : forall b', In b' BASES ->
            snd (exact_suffix_matches
                   (replace_base_at_index read_sequence idx b'))
            <= cand_length c1).
  { intros b' Hb'. destruct (Ascii.eqb_spec b' observed) as [-> | Hne].
    - rewrite replace_same; [| unfold idx; lia | exact Hx]. fold length. lia.
    - apply Hmax. apply filter_In. split; [exact Hb' |].
      apply negb_true_iff. apply Ascii.eqb_neq. exact Hne. }
  assert (Hbest : best = c1).
  { destruct rounds as [| rounds];
      [rewrite improve_no_round in H | rewrite improve_round in H].
    { destruct (_ && _ && true); [discriminate |]. injection H as <-.
      reflexivity. }
    destruct ((cand_misses c1 <? mismatches) && (cand_length c1 <? len_read)
              && true); [| injection H as <-; reflexivity].
    bind_inv H. rewrite try_changes_no_update in H.
    { rewrite improve_stops in H. injection H as <-. reflexivity. }
    intros b' Hb'. apply filter_In in Hb'. apply Hall. apply Hb'. }
  right. exists observed, b. apply filter_In in Hb. destruct Hb as [Hb Hne].
  apply negb_true_iff in Hne. apply Ascii.eqb_neq in Hne.
  split; [exact Hx |]. split; [unfold idx; lia |]. split; [exact Hb |].
  split; [exact Hne |]. rewrite Hbest. split; [exact E1 |].
  split; [rewrite <- Hlen0; exact Hlt | exact Hall].
Qed.

Lemma improve_one_mismatch rounds read_sequence mismatches best :
  improve exact_suffix_matches rounds read_sequence
    (Z.of_nat (List.length read_sequence))
    (snd (exact_suffix_matches read_sequence)) mismatches
    (exact_suffix_matches read_sequence, read_sequence, 0) true = Ok best ->
  (cand_misses best = 0 \/ cand_misses best = 1)
  /\ List.length (cand_read best) = List.length read_sequence.
Proof.
  intros H. apply improve_single_round in H.
  destruct H as [-> | [observed [b [Hx [Hidx [_ [_ [-> _]]]]]]]].
  - split; [left; reflexivity | reflexivity].
  - split; [right; reflexivity |].
    unfold cand_read. simpl. apply replace_length.
    split; [exact Hidx | eapply py_index_bound; exact Hx].
Qed.

Lemma find_seeds_one_mismatch k :
  forall read_sequence mismatches seeds,
    find_seeds sa exact_suffix_matches read_sequence mismatches k = Ok seeds ->
    Forall (fun x => seed_mismatches x = 0 \/ seed_mismatches x = 1) seeds.
Proof.
  induction k as [| k IH]; intros read_sequence mismatches seeds H.
  - inversion H. constructor.
  - apply find_seeds_step in H.
    destruct H as [best [positions [Hbest [_ Hcase]]]].
    apply improve_one_mismatch in Hbest. destruct Hbest as [Hbest _].
    destruct Hcase as [[-> _] | [more [-> [_ Hmore]]]].
    + constructor; [exact Hbest | constructor].
    + constructor; [exact Hbest | eapply IH; exact Hmore].
Qed.

End Index.

End SeedsFacts.

Module SeedsClaims.
Import Seeds.

(** C2, at an input that shows what the loop of find_seeds does.  The
    query "GCTTGCA" matches the genome "GATTACATTT$" on its last 2 symbols.
    The first round puts A, C, T at index 4 and keeps "GCTTACA", which
    matches on 5.  The second round puts A, G, T at index 4 of the query it
    started from, not at index 1 of "GCTTACA": nothing is longer than 5 and
    the loop ends, though "GATTACA", the read of the best with A at its
    next unmatched position, matches on all 7.  The seed reported has
    length 5 and 1 mismatch. *)
Theorem second_round_changes_first_query :
  let esm := FMIndex.exact_suffix_matches Examples.gattaca in
  let sa := FMIndex.get_suffix_array Examples.gattaca in
  let query := chars "GCTTGCA" in
  let best := ((9, 10), 5, chars "GCTTACA", 1) in
  esm query = ((4, 5), 2)
  /\ try_changes esm query 7 2 0 ["A"; "C"; "T"]%char ((4, 5), 2, query, 0) false
     = (best, true)
  /\ try_changes esm query 7 2 1 ["A"; "G"; "T"]%char best false = (best, false)
  /\ candidate_from_best best 7 "A"%char = chars "GATTACA"
  /\ esm (candidate_from_best best 7 "A"%char) = ((5, 6), 7)
  /\ find_seeds sa esm Examples.two_off_read 6 1
     = Ok [([2; 7], 5, 1, chars "TTACA")].
Proof. vm_compute. repeat split. Qed.

(** C3, at an input with three occurrences.  The genome "ACGTACGTACGT$" has
    "ACGT" at 0, 4 and 8, rows 1 to 3 of its suffix array; the matcher
    returns the interval (1, 4); the seed reports [sa[1], sa[4]] = [8, 9]:
    two of the three occurrences are missing and 9 is not one. *)
Theorem seed_positions_are_the_two_bounds :
  let esm := FMIndex.exact_suffix_matches Examples.repeats in
  let sa := FMIndex.get_suffix_array Examples.repeats in
  esm (chars "ACGT") = ((1, 4), 4)
  /\ materialized sa (1, 4) = [Some 8; Some 4; Some 0]
  /\ find_seeds sa esm (chars "TGCA") 6 1 = Ok [([8; 9], 4, 0, chars "ACGT")].
Proof. vm_compute. repeat split. Qed.

(** C6: no seed reported by find_seeds(read, m, k) has consumed more than
    [m] mismatches; and when the first seed is followed by others, they
    are the result of the call on the unmatched remainder (what is left of
    the query before the tail of the seed) with seed count [k - 1] and
    budget [m] less the mismatches of the first seed.  So the seeds are at
    most [k] and together consume at most [m]. *)
Theorem seeds_within_budget (sa : list Z)
    (exact_suffix_matches : str -> (Z * Z) * Z)
    (read_sequence : str) (m : Z) (k : nat) (seeds : list seed) :
  0 <= m ->
  find_seeds sa exact_suffix_matches read_sequence m k = Ok seeds ->
  Forall (fun x => seed_mismatches x <= m) seeds
  /\ total_mismatches seeds <= m
  /\ (List.length seeds <= k)%nat
  /\ forall first more,
       seeds = first :: more ->
       exists k',
         k = S k'
         /\ (more = []
             \/ exists remainder,
                  (List.length remainder + List.length (seed_tail first)
                   = List.length read_sequence)%nat
                  /\ find_seeds sa exact_suffix_matches remainder
                       (m - seed_mismatches first) k' = Ok more).
Proof.
  intros Hm H.
  destruct (SeedsFacts.find_seeds_budget sa exact_suffix_matches k _ _ _ Hm H)
    as [Hall [Htot Hlen]].
  split; [| split; [exact Htot | split; [exact Hlen |]]].
  - eapply Forall_impl; [| exact Hall]. simpl. intros x Hx. lia.
  - intros first more Hseeds. destruct k as [| k].
    + inversion H; subst. discriminate.
    + exists k. split; [reflexivity |].
      apply SeedsFacts.find_seeds_step in H.
      destruct H as [best [positions [Hbest [_ Hcase]]]].
      apply SeedsFacts.improve_one_mismatch in Hbest.
      destruct Hbest as [_ Hsame].
      destruct Hcase as [[E _] | [more' [E [_ Hmore]]]];
        rewrite E in Hseeds; inversion Hseeds; subst.
      * left. reflexivity.
      * right. eexists. split; [| unfold seed_mismatches; simpl; exact Hmore].
        unfold seed_tail, slice_to, slice_from. simpl.
        rewrite <- (length_rev read_sequence), <- Hsame.
        rewrite length_firstn, length_skipn. lia.
Qed.

Lemma seeds_within_budget_witness :
  let seeds := [([2; 7], 5, 1, chars "TTACA"); ([0; 9], 1, 0, chars "G")] in
  Forall (fun x => seed_mismatches x <= 6) seeds
  /\ total_mismatches seeds <= 6
  /\ (List.length seeds <= 2)%nat
  /\ forall first more,
       seeds = first :: more ->
       exists k',
         2%nat = S k'
         /\ (more = []
             \/ exists remainder,
                  (List.length remainder + List.length (seed_tail first)
                   = List.length Examples.two_off_read)%nat
                  /\ find_seeds (FMIndex.get_suffix_array Examples.gattaca)
                       (FMIndex.exact_suffix_matches Examples.gattaca) remainder
                       (6 - seed_mismatches first) k' = Ok more).
Proof.
  apply (seeds_within_budget (FMIndex.get_suffix_array Examples.gattaca)
           (FMIndex.exact_suffix_matches Examples.gattaca)
           Examples.two_off_read 6 2).
  - lia.
  - vm_compute. reflexivity.
Defined.

(** *** check_seeds *)

Lemma keeps_none location : keeps None location = true.
Proof. reflexivity. Qed.

Lemma keeps_zero location : keeps (Some 0) location = true.
Proof. reflexivity. Qed.

(** A bound other than 0 keeps exactly the positions whose gap is allowed. *)
Lemma keeps_nonzero high_bound location :
  high_bound <> 0 ->
  keeps (Some high_bound) location = true <-> gap_allowed high_bound location.
Proof.
  intros Hnz. unfold keeps, not_, gap_allowed, MIN_INTRON_SIZE, MAX_INTRON_SIZE.
  destruct (Z.eqb_spec high_bound 0) as [| _]; [contradiction |]. simpl.
  rewrite !andb_true_iff, Z.ltb_lt, !Z.leb_le. lia.
Qed.

(** check_seeds is a filter over the rows of the interval. *)
Lemma check_rows_filter sa genome_sequence rows length high_bound :
  forall values valid_seeds,
    Forall2 (fun i v => py_index sa i = Some v) rows values ->
    check_rows sa genome_sequence rows length high_bound valid_seeds
    = Ok (valid_seeds
          ++ map (fun v => Z.of_nat (List.length genome_sequence) + 1 - (v + length))
               (filter (fun v => keeps high_bound (v + length)) values)).
Proof.
  induction rows as [| i rows IH]; intros values acc Hrows;
    inversion Hrows as [| ? v ? values' Hv Hrest]; subst; simpl.
  - rewrite app_nil_r. reflexivity.
  - unfold index. rewrite Hv. cbn [bind].
    rewrite (IH _ _ Hrest).
    destruct (keeps high_bound (v + length)); simpl.
    + rewrite <- app_assoc. reflexivity.
    + reflexivity.
Qed.

Lemma check_seeds_filter sa genome_sequence _range length high_bound values :
  Forall2 (fun i v => py_index sa i = Some v)
    (range2 (fst _range) (snd _range)) values ->
  check_seeds sa genome_sequence _range length high_bound
  = Ok (map (fun v => Z.of_nat (List.length genome_sequence) + 1 - (v + length))
          (filter (fun v => keeps high_bound (v + length)) values)).
Proof.
  intros H. unfold check_seeds.
  rewrite (check_rows_filter _ _ _ _ _ _ [] H). reflexivity.
Qed.

(** C7, at the bound 0.  The rows 7 to 9 of the index hold the three
    occurrences of "GCA", which end at 12, 8 and 4.  With the bound 0
    supplied every one of them has a negative gap and all three are kept:
    [not high_bound] is also true of 0.  With the bound 30 the same
    positions are filtered by their gap (18, 22, 26), and with no bound
    all are kept. *)
Theorem zero_bound_keeps_everything :
  materialized Examples.mirrored_sa (7, 10) = [Some 9; Some 5; Some 1]
  /\ check_seeds Examples.mirrored_sa Examples.plain_genome (7, 10) 3 (Some 0)
     = Ok [1; 5; 9]
  /\ Forall (fun location => ~ gap_allowed 0 location) [12; 8; 4]
  /\ check_seeds Examples.mirrored_sa Examples.plain_genome (7, 10) 3 (Some 30)
     = Ok [5; 9]
  /\ check_seeds Examples.mirrored_sa Examples.plain_genome (7, 10) 3 None
     = Ok [1; 5; 9].
Proof.
  split; [vm_compute; reflexivity |].
  split; [vm_compute; reflexivity |].
  split; [| split; vm_compute; reflexivity].
  repeat constructor; unfold gap_allowed, MIN_INTRON_SIZE; lia.
Qed.

End SeedsClaims.

(** * Further properties of the transcriptome aligner *)

Module AlignerFacts.
Import Transcriptome TranscriptomeFacts.

Lemma index_at_the_end {A : Type} (l : list A) (i : Z) :
  Z.of_nat (length l) <= i -> index l i = @IndexError A.
Proof.
  intros H. unfold index, py_index.
  destruct (Z.leb_spec 0 i); [| lia].
  replace (nth_error l (Z.to_nat i)) with (@None A); [reflexivity |].
  symmetry. apply nth_error_None. lia.
Qed.

Lemma table_length_nonneg off exons :
  table_from off exons -> 0 <= table_length exons.
Proof.
  revert off. induction exons as [| [[o g] len] exons IH]; intros off Ht.
  - unfold table_length. simpl. lia.
  - destruct Ht as [_ [Hl Ht]]. rewrite table_length_cons. simpl snd.
    specialize (IH _ Ht). lia.
Qed.

Lemma table_from_nonneg off exons :
  table_from off exons -> Forall (fun r : exon_row => 0 <= snd r) exons.
Proof.
  revert off. induction exons as [| [[o g] len] exons IH]; intros off Ht.
  - constructor.
  - destruct Ht as [_ [Hl Ht]]. constructor; [simpl; lia | eapply IH; exact Ht].
Qed.

Lemma table_from_tail off pre post :
  table_from off (pre ++ post) -> table_from (off + table_length pre) post.
Proof.
  revert off. induction pre as [| [[o g] len] pre IH]; intros off Ht.
  - unfold table_length. simpl in *. rewrite Z.add_0_r. exact Ht.
  - destruct Ht as [Ho [Hl Ht]]. apply IH in Ht.
    rewrite table_length_cons. simpl snd.
    replace (off + (len + table_length pre)) with (off + len + table_length pre)
      by lia.
    exact Ht.
Qed.

(** On a prefix-length table, with the position in row [length pre],
    find_alignment is its loop started after that row. *)
Lemma find_alignment_from_row exons pre o g len post pos read_len :
  table_from 0 exons -> exons = pre ++ (o, g, len) :: post ->
  o <= pos < o + len ->
  find_alignment read_len pos exons
  = extend (S (length post)) exons (Z.of_nat (length pre))
      (read_len - (len - (pos - o)))
      [(0, g + (pos - o),
        if read_len + (pos - o) <=? len then read_len else len - (pos - o))]
      (0, g + (pos - o),
       if read_len + (pos - o) <=? len then read_len else len - (pos - o)).
Proof.
  intros Ht Hex Hpos.
  assert (Hrow : nth_error exons (length pre) = Some (o, g, len))
    by (subst exons; apply nth_error_middle).
  assert (Hn : length exons = (length pre + S (length post))%nat)
    by (subst exons; rewrite length_app; reflexivity).
  unfold find_alignment.
  rewrite (find_start_location_finds 0 exons (length pre) o g len pos Ht Hrow Hpos)
    by (unfold search_depth; lia).
  cbn [bind]. rewrite (index_nth _ _ _ Hrow). cbn [bind].
  replace (Z.to_nat (Z.of_nat (length exons) - Z.of_nat (length pre)))
    with (S (length post)) by lia.
  reflexivity.
Qed.

Lemma index_after_row (pre : list exon_row) r r2 post :
  index (pre ++ r :: r2 :: post) (Z.of_nat (length pre) + 1) = Ok r2.
Proof.
  replace (Z.of_nat (length pre) + 1) with (Z.of_nat (length (pre ++ [r])))
    by (rewrite length_app; simpl; lia).
  apply index_nth. rewrite app_cons_assoc. apply nth_error_middle.
Qed.

(** The loop keeps every piece inside one row: it enters a row at its
    start, and leaves it at its end when the read goes on. *)
Lemma extend_carried post :
  forall pre o g len exons read_len algn last a pos,
    table_from 0 exons -> exons = pre ++ (o, g, len) :: post ->
    (0 < read_len -> pos + read_start last + piece_length last = o + len) ->
    extend (S (length post)) exons (Z.of_nat (length pre)) read_len algn last
    = Ok a ->
    Forall (carried_by exons pos) algn ->
    Forall (carried_by exons pos) a.
Proof.
  induction post as [| [[o2 g2] l2] post IH];
    intros pre o g len exons read_len algn last a pos Ht Hex Hend H Hall.
  - simpl in H. destruct (Z.gtb_spec read_len 0).
    + rewrite index_at_the_end in H; [discriminate |].
      subst exons. rewrite length_app. simpl. lia.
    + inversion H; subst. exact Hall.
  - cbn [extend length] in H. destruct (Z.gtb_spec read_len 0) as [Hpos | Hneg].
    + subst exons. rewrite index_after_row in H. cbn [bind] in H.
      assert (Ho2 : o2 = o + len /\ 0 < l2).
      { pose proof Ht as Ht1. rewrite app_cons_assoc in Ht1.
        apply table_from_middle in Ht1.
        pose proof (table_from_middle _ _ _ _ _ _ Ht) as Hm.
        rewrite table_length_app in Ht1. unfold table_length at 2 in Ht1.
        simpl in Ht1. lia. }
      replace (Z.of_nat (length pre) + 1)
        with (Z.of_nat (length (pre ++ [(o, g, len)]))) in H
        by (rewrite length_app; simpl; lia).
      eapply (IH (pre ++ [(o, g, len)]) o2 g2 l2); [exact Ht | | | exact H |].
      * rewrite <- app_assoc. reflexivity.
      * intros Hmore. rewrite read_start_eq, piece_length_eq.
        destruct (Z.leb_spec read_len l2); lia.
      * apply Forall_app. split; [exact Hall |]. constructor; [| constructor].
        exists o2, g2, l2. rewrite read_start_eq, piece_length_eq.
        split; [apply in_or_app; right; right; left; reflexivity |].
        split; [lia |]. split.
        -- destruct (Z.leb_spec read_len l2); lia.
        -- rewrite reference_start_eq. lia.
    + inversion H; subst. exact Hall.
Qed.

(** The loop runs out of rows when the read is longer than what is left
    of the table. *)
Lemma extend_runs_out post :
  forall pre r exons read_len algn last,
    exons = pre ++ r :: post ->
    (exists off, table_from off post) ->
    table_length post < read_len ->
    extend (S (length post)) exons (Z.of_nat (length pre)) read_len algn last
    = IndexError.
Proof.
  induction post as [| [[o2 g2] l2] post IH];
    intros pre r exons read_len algn last Hex [off Ht] Hlong.
  - unfold table_length in Hlong. simpl in Hlong. simpl.
    destruct (Z.gtb_spec read_len 0); [| lia].
    rewrite index_at_the_end; [reflexivity |].
    subst exons. rewrite length_app. simpl. lia.
  - rewrite table_length_cons in Hlong. simpl snd in Hlong.
    destruct Ht as [_ [Hl2 Ht]].
    pose proof (table_length_nonneg _ _ Ht) as Hnn.
    cbn [extend length]. destruct (Z.gtb_spec read_len 0); [| lia].
    subst exons. rewrite index_after_row. cbn [bind].
    replace (Z.of_nat (length pre) + 1)
      with (Z.of_nat (length (pre ++ [r]))) by (rewrite length_app; simpl; lia).
    apply (IH (pre ++ [r]) (o2, g2, l2));
      [rewrite <- app_assoc; reflexivity | eexists; exact Ht | lia].
Qed.

(** When every row ends at or before the position, the search walks to
    the right end of the table and indexes past it. *)
Lemma find_start_location_off_the_end exons pos :
  Forall (fun r : exon_row => fst (fst r) + snd r <= pos) exons ->
  forall calls lo,
    0 <= lo <= Z.of_nat (length exons) ->
    (Z.to_nat (Z.of_nat (length exons) - lo) < calls)%nat ->
    find_start_location calls exons pos lo (Z.of_nat (length exons))
    = IndexError.
Proof.
  intros Hrows. induction calls as [| calls IH]; intros lo Hlo Hcalls; [lia |].
  rewrite find_start_location_call.
  assert (Hmid : lo <= (lo + Z.of_nat (length exons)) / 2
                 <= Z.of_nat (length exons))
    by (Z.to_euclidean_division_equations; lia).
  remember ((lo + Z.of_nat (length exons)) / 2) as mid eqn:Emid.
  destruct (nth_error exons (Z.to_nat mid)) as [[[o g] len] |] eqn:Hrow.
  - rewrite <- (Z2Nat.id mid) at 1 by lia.
    rewrite (index_nth _ _ _ Hrow). cbn [bind].
    rewrite Forall_forall in Hrows.
    pose proof (Hrows _ (nth_error_In _ _ Hrow)) as Hr. simpl in Hr.
    assert (Hm : mid < Z.of_nat (length exons)).
    { assert ((Z.to_nat mid < length exons)%nat)
        by (apply nth_error_Some; rewrite Hrow; discriminate).
      lia. }
    destruct (Z.leb_spec o pos), (Z.ltb_spec pos (o + len)); simpl; try lia;
      (destruct (Z.leb_spec (o + len) pos); [| lia]); apply IH; lia.
  - apply nth_error_None in Hrow.
    unfold index, py_index. destruct (Z.leb_spec 0 mid); [| lia].
    replace (nth_error exons (Z.to_nat mid)) with (@None exon_row);
      [reflexivity |].
    symmetry. apply nth_error_None. exact Hrow.
Qed.

(** When every row starts after the position, the search walks to the
    left end, wraps to the last row and then calls itself with the same
    arguments for ever. *)
Lemma find_start_location_before exons pos :
  exons <> [] ->
  Forall (fun r : exon_row => pos < fst (fst r) /\ pos < fst (fst r) + snd r)
    exons ->
  forall calls hi,
    -2 <= hi <= Z.of_nat (length exons) ->
    find_start_location calls exons pos 0 hi = Diverges.
Proof.
  intros Hne Hrows.
  assert (Hlast : exists o g len,
             py_index exons (0 - 1) = Some ((o, g, len) : exon_row)
             /\ ((o <=? pos) && (pos <? o + len)) = false
             /\ (o + len <=? pos) = false).
  { destruct (nth_error exons (length exons - 1)) as [[[o g] len] |] eqn:Hrow.
    - exists o, g, len. split.
      + unfold py_index. simpl.
        destruct (Z.leb_spec (- Z.of_nat (length exons)) (-1));
          [| destruct exons; [congruence | simpl in *; lia]].
        replace (Z.to_nat (Z.of_nat (length exons) + -1))
          with (length exons - 1)%nat by lia.
        exact Hrow.
      + rewrite Forall_forall in Hrows.
        pose proof (Hrows _ (nth_error_In _ _ Hrow)) as Hr. simpl in Hr.
        destruct (Z.leb_spec o pos), (Z.ltb_spec pos (o + len)),
          (Z.leb_spec (o + len) pos); simpl; split; try reflexivity; lia.
    - apply nth_error_None in Hrow.
      destruct exons; [congruence | simpl in Hrow; lia]. }
  destruct Hlast as [o [g [len [Hrow [Hfound Hright]]]]].
  induction calls as [| calls IH]; intros hi Hhi; [reflexivity |].
  destruct (Z.eq_dec hi (-2)) as [-> | Hn2].
  { apply (find_start_location_stuck_left (S calls) exons pos 0 o g len);
      assumption. }
  rewrite find_start_location_call.
  destruct (Z.eq_dec hi (-1)) as [-> | Hn1].
  { replace ((0 + -1) / 2) with (0 - 1) by reflexivity.
    unfold index. rewrite Hrow. cbn [bind]. rewrite Hfound, Hright.
    apply IH. lia. }
  assert (Hmid : 0 <= (0 + hi) / 2 <= hi
                 /\ (0 + hi) / 2 < Z.of_nat (length exons)).
  { assert (0 < Z.of_nat (length exons))
      by (destruct exons; [congruence | simpl; lia]).
    Z.to_euclidean_division_equations; lia. }
  destruct Hmid as [Hmid Hmidn].
  remember ((0 + hi) / 2) as mid eqn:Emid.
  destruct (nth_error exons (Z.to_nat mid)) as [[[o1 g1] l1] |] eqn:Hrow1.
  2:{ apply nth_error_None in Hrow1. lia. }
  rewrite <- (Z2Nat.id mid) at 1 by lia.
  rewrite (index_nth _ _ _ Hrow1). cbn [bind].
  rewrite Forall_forall in Hrows.
  pose proof (Hrows _ (nth_error_In _ _ Hrow1)) as Hr. simpl in Hr.
  destruct (Z.leb_spec o1 pos), (Z.ltb_spec pos (o1 + l1)); simpl; try lia;
    (destruct (Z.leb_spec (o1 + l1) pos); [lia |]); apply IH; lia.
Qed.

(** The alignment of a window that lies inside a prefix-length table. *)
Lemma find_alignment_window (exons : list exon_row) (pos read_len : Z) :
  table_from 0 exons -> 0 <= pos < table_length exons -> 0 <= read_len ->
  pos + read_len <= table_length exons ->
  exists a,
    find_alignment read_len pos exons = Ok a
    /\ chained 0 a /\ total_length a = read_len
    /\ Forall (fun p => 0 <= piece_length p /\ carried_by exons pos p) a.
Proof.
  intros Ht Hpos Hrl Hfit.
  destruct (table_row_exists 0 exons pos Ht) as [j [o [g [len [Hj Hb]]]]];
    [lia |].
  destruct (nth_error_split _ _ Hj) as [pre [post [Hex Hpre]]].
  destruct (find_alignment_covers exons pre o g len post pos read_len
              Ht Hex Hb Hrl Hfit) as [a [Ha [Htot _]]].
  exists a. split; [exact Ha |].
  split; [eapply find_alignment_chained; exact Ha |]. split; [exact Htot |].
  pose proof (find_alignment_lengths _ _ _ _ (table_from_nonneg _ _ Ht) Hrl Ha)
    as Hlen.
  assert (Hcar : Forall (carried_by exons pos) a).
  { rewrite (find_alignment_from_row exons pre o g len post pos read_len
               Ht Hex Hb) in Ha.
    eapply extend_carried; [exact Ht | exact Hex | | exact Ha |].
    - intros Hmore. rewrite read_start_eq, piece_length_eq.
      destruct (Z.leb_spec (read_len + (pos - o)) len); lia.
    - constructor; [| constructor]. exists o, g, len.
      rewrite read_start_eq, piece_length_eq, reference_start_eq.
      split; [subst exons; apply in_or_app; right; left; reflexivity |].
      split; [lia |]. split; [| lia].
      destruct (Z.leb_spec (read_len + (pos - o)) len); lia. }
  rewrite Forall_forall in *. intros p Hp. split; [apply Hlen | apply Hcar];
    exact Hp.
Qed.


(** *** From the isoform back to the genome *)

Lemma slice_nth {A : Type} (l : list A) (a b : Z) (d : nat) :
  0 <= a -> a <= b -> b <= Z.of_nat (length l) ->
  (d < Z.to_nat (b - a))%nat ->
  nth_error (slice l a b) d = nth_error l (Z.to_nat a + d).
Proof.
  intros Ha Hab Hb Hd. unfold slice, clip.
  destruct (Z.ltb_spec a 0); [lia |]. destruct (Z.ltb_spec b 0); [lia |].
  rewrite nth_error_firstn.
  destruct (Nat.ltb_spec d (Nat.min (length l) (Z.to_nat b)
                            - Nat.min (length l) (Z.to_nat a))); [| lia].
  rewrite nth_error_skipn. f_equal. lia.
Qed.

Lemma add_exons_spells genome_sequence exons_left :
  forall isoform exons total_len,
    Forall (exon_in genome_sequence) exons_left ->
    table_from 0 exons -> table_length exons = total_len ->
    Z.of_nat (length isoform) = total_len ->
    Forall (row_spells genome_sequence isoform) exons ->
    let e := add_exons genome_sequence exons_left isoform exons total_len in
    Forall (row_spells genome_sequence (fst e)) (snd e).
Proof.
  induction exons_left as [| ex rest IH]; intros isoform exons total_len
    Hin Ht Hlen Hiso Hrows; simpl; [exact Hrows |].
  inversion Hin as [| ? ? [H0 [Hlt Hend]] Hrest]; subst.
  apply IH; [exact Hrest | | | |].
  - apply table_from_snoc; [exact Ht | lia | lia].
  - rewrite table_length_app. unfold table_length at 2. simpl. lia.
  - rewrite length_app, Nat2Z.inj_add, slice_length by lia. lia.
  - apply Forall_app. split.
    + rewrite Forall_forall in *. intros [[o g] len] Hr.
      destruct (Hrows _ Hr) as [Ho [Hg Hsp]].
      split; [exact Ho |]. split; [exact Hg |]. intros d Hd.
      destruct (In_nth_error _ _ Hr) as [j Hj].
      destruct (table_row_bounds _ _ _ _ _ _ Ht Hj) as [_ [_ Hup]].
      rewrite nth_error_app1 by lia. apply Hsp. exact Hd.
    + constructor; [| constructor].
      pose proof (table_length_nonneg _ _ Ht) as Hnn.
      split; [lia |]. split; [lia |]. intros d Hd.
      rewrite nth_error_app2 by lia.
      replace (Z.to_nat (table_length exons + d) - length isoform)%nat
        with (Z.to_nat d) by lia.
      rewrite slice_nth by lia. f_equal. lia.
Qed.

Lemma build_entry_spells genome_sequence iso :
  Forall (exon_in genome_sequence) (isoform_exons iso) ->
  Forall (row_spells genome_sequence (fst (build_entry genome_sequence iso)))
    (snd (build_entry genome_sequence iso)).
Proof.
  intros Hin. unfold build_entry.
  apply add_exons_spells; try assumption; try reflexivity; constructor.
Qed.

Lemma add_exons_closed_form genome_sequence exons_left :
  forall isoform exons total_len,
    let e := add_exons genome_sequence exons_left isoform exons total_len in
    map (fun r : exon_row => (snd (fst r), snd (fst r) + snd r)) (snd e)
    = map (fun r : exon_row => (snd (fst r), snd (fst r) + snd r)) exons
      ++ map (fun ex => (exon_start ex, exon_end ex)) exons_left
    /\ fst e
       = isoform
         ++ concat (map (fun ex => slice genome_sequence (exon_start ex)
                                     (exon_end ex)) exons_left).
Proof.
  induction exons_left as [| ex rest IH]; intros isoform exons total_len; simpl.
  - rewrite !app_nil_r. split; reflexivity.
  - destruct (IH (isoform ++ slice genome_sequence (exon_start ex) (exon_end ex))
                (exons ++ [(total_len, exon_start ex, exon_end ex - exon_start ex)])
                (total_len + (exon_end ex - exon_start ex))) as [H1 H2].
    split.
    + rewrite H1, map_app, <- app_assoc. simpl.
      replace (exon_start ex + (exon_end ex - exon_start ex)) with (exon_end ex)
        by lia.
      reflexivity.
    + rewrite H2, <- app_assoc. reflexivity.
Qed.

Lemma built_entries genome_sequence genes e :
  In e (isoforms_of (build_transcriptome genome_sequence genes)) ->
  exists gene iso,
    In gene genes /\ In iso (gene_isoforms gene)
    /\ e = build_entry genome_sequence iso.
Proof.
  unfold isoforms_of, build_transcriptome. intros H.
  apply in_flat_map in H. destruct H as [g [Hg He]].
  apply in_map_iff in Hg. destruct Hg as [gene [<- Hgene]].
  simpl in He. rewrite map_map in He. simpl in He.
  apply in_map_iff in He. destruct He as [iso [<- Hiso]].
  exists gene, iso. repeat split; assumption.
Qed.

(** A read with no mismatch at an offset is the text at that offset. *)
Lemma mismatch_count_zero (read text : str) :
  (length read <= length text)%nat -> mismatch_count read text = 0%nat ->
  forall j, (j < length read)%nat -> nth_error read j = nth_error text j.
Proof.
  revert text. induction read as [| c read IH]; intros text Hlen Hz j Hj;
    [simpl in Hj; lia |].
  destruct text as [| d text]; [simpl in Hlen; lia |].
  simpl in Hz. destruct (Ascii.eqb_spec d c) as [-> | Hne]; [| lia].
  destruct j as [| j]; [reflexivity |]. simpl.
  apply IH; simpl in *; lia.
Qed.

Lemma chained_within (a : alignment) (start : Z) (p : piece) :
  chained start a -> Forall (fun q => 0 <= piece_length q) a -> In p a ->
  start <= read_start p /\ read_start p + piece_length p <= start + total_length a.
Proof.
  revert start. induction a as [| q a IH]; intros start Hc Hl Hp; [destruct Hp |].
  destruct Hc as [Hq Hc]. inversion Hl as [| ? ? Hq0 Hl']; subst.
  assert (Hrest : 0 <= total_length a).
  { clear - Hl'. induction a as [| x a IH]; [unfold total_length; simpl; lia |].
    inversion Hl'; subst. unfold total_length in *. simpl. specialize (IH H2).
    lia. }
  unfold total_length. simpl. fold (total_length a).
  destruct Hp as [-> | Hp]; [lia |].
  destruct (IH _ Hc Hl' Hp). lia.
Qed.

Section Scans.

Variable MAX : nat.

(** On an entry built by the notebook a match is the window of an offset
    that lies in the table. *)
Lemma matched_offset_in_table read isoform exons a m :
  well_formed (isoform, exons) ->
  align_to_isoform MAX read isoform exons = Ok (Found a m) ->
  exists i,
    occurs_at read isoform i m
    /\ find_alignment (Z.of_nat (length read)) (Z.of_nat i) exons = Ok a
    /\ 0 <= Z.of_nat i < table_length exons.
Proof.
  intros [Hne [Ht Hlen]] H. simpl in Hne, Ht, Hlen.
  destruct (align_to_isoform_result MAX read _ _ _ H)
    as [i [Hocc [_ [_ [Hfirst Hfa]]]]].
  exists i. split; [exact Hocc |]. split; [exact Hfa |].
  destruct Hocc as [Hfit Hc]. split; [lia |].
  destruct read as [| c read]; [| simpl in Hfit; lia].
  destruct i as [| i]; [simpl; eapply table_length_pos; eauto |].
  assert (Hz : occurs_at [] isoform 0 0) by (split; [simpl; lia | reflexivity]).
  assert (Hm : m = 0%nat) by (subst m; reflexivity).
  specialize (Hfirst _ _ Hz). lia.
Qed.

Lemma pick_zero_stays read isoform offsets i :
  fold_left (pick MAX read isoform) offsets (Some (i, 0%nat)) = Some (i, 0%nat).
Proof.
  induction offsets as [| j offsets IH]; [reflexivity |].
  simpl. unfold pick at 2. simpl. rewrite andb_false_r. exact IH.
Qed.

(** A call that returns has had every isoform return. *)
Lemma over_entries_all_returned read l :
  forall best r,
    over_entries MAX read l best = Ok r ->
    all_align MAX read (fun _ => True) l.
Proof.
  induction l as [| [isoform exons] l IH]; intros best r H; [constructor |].
  simpl in H. bind_inv H. constructor.
  - exists x. split; [exact Hx | exact I].
  - eapply IH. exact H.
Qed.

End Scans.

End AlignerFacts.

Module AlignerProperties.
Import Transcriptome TranscriptomeFacts AlignerFacts.

(** X1: on a prefix-length table find_alignment tiles the window
    [pos, pos + read_len) of the isoform: it returns, the pieces follow one
    another from read position 0, their lengths are not negative and sum
    to [read_len], and every piece lies inside one exon row, its reference
    start being the genome start of that row plus its offset in the row. *)
Theorem find_alignment_tiles_window (exons : list exon_row)
    (pos read_len : Z) :
  table_from 0 exons -> 0 <= pos < table_length exons -> 0 <= read_len ->
  pos + read_len <= table_length exons ->
  exists a,
    find_alignment read_len pos exons = Ok a
    /\ chained 0 a /\ total_length a = read_len
    /\ Forall (fun p => 0 <= piece_length p /\ carried_by exons pos p) a.
Proof. apply find_alignment_window. Qed.

Lemma find_alignment_tiles_window_witness :
  exists a,
    find_alignment 5 1 [(0, 100, 4); (4, 200, 4)] = Ok a
    /\ chained 0 a /\ total_length a = 5
    /\ Forall (fun p => 0 <= piece_length p
                        /\ carried_by [(0, 100, 4); (4, 200, 4)] 1 p) a.
Proof.
  apply (find_alignment_tiles_window [(0, 100, 4); (4, 200, 4)] 1 5).
  - simpl. repeat split; lia.
  - unfold table_length. simpl. lia.
  - lia.
  - unfold table_length. simpl. lia.
Defined.

(** X2: when the window starts inside a prefix-length table and runs past
    its end, find_alignment raises IndexError: the loop asks for the exon
    row after the last one. *)
Theorem find_alignment_window_too_long (exons : list exon_row)
    (pos read_len : Z) :
  table_from 0 exons -> 0 <= pos < table_length exons ->
  table_length exons < pos + read_len ->
  find_alignment read_len pos exons = IndexError.
Proof.
  intros Ht Hpos Hlong.
  destruct (table_row_exists 0 exons pos Ht) as [j [o [g [len [Hj Hb]]]]];
    [lia |].
  destruct (nth_error_split _ _ Hj) as [pre [post [Hex Hpre]]].
  rewrite (find_alignment_from_row exons pre o g len post pos read_len Ht Hex Hb).
  assert (Ho : o = table_length pre /\ 0 < len).
  { subst exons. apply table_from_middle in Ht. lia. }
  assert (Htot : table_length exons = table_length pre + len + table_length post).
  { subst exons. rewrite table_length_app, table_length_cons. simpl snd. lia. }
  apply (extend_runs_out post pre (o, g, len)); [exact Hex | | lia].
  exists (0 + table_length (pre ++ [(o, g, len)])).
  apply table_from_tail. rewrite <- app_cons_assoc, <- Hex. exact Ht.
Qed.

Lemma find_alignment_window_too_long_witness :
  find_alignment 5 6 [(0, 100, 4); (4, 200, 4)] = IndexError.
Proof.
  apply (find_alignment_window_too_long [(0, 100, 4); (4, 200, 4)] 6 5).
  - simpl. repeat split; lia.
  - unfold table_length. simpl. lia.
  - unfold table_length. simpl. lia.
Defined.

(** X3: for a position at or after the end of a prefix-length table (so
    also for an empty table and any position from 0 on) find_alignment
    raises IndexError: the binary search starts with [hi = len(exons)] and
    indexes the table there. *)
Theorem find_alignment_position_after_table (exons : list exon_row)
    (pos read_len : Z) :
  table_from 0 exons -> table_length exons <= pos ->
  find_alignment read_len pos exons = IndexError.
Proof.
  intros Ht Hpos. unfold find_alignment.
  rewrite find_start_location_off_the_end; [reflexivity | | lia |].
  - apply Forall_forall. intros [[o g] len] Hin.
    destruct (In_nth_error _ _ Hin) as [j Hj].
    destruct (table_row_bounds _ _ _ _ _ _ Ht Hj) as [_ [_ Hend]].
    simpl. lia.
  - unfold search_depth. lia.
Qed.

Lemma find_alignment_position_after_table_witness :
  find_alignment 0 8 [(0, 100, 4); (4, 200, 4)] = IndexError.
Proof.
  apply (find_alignment_position_after_table [(0, 100, 4); (4, 200, 4)] 8 0).
  - simpl. repeat split; lia.
  - unfold table_length. simpl. lia.
Defined.

(** X4: for a negative position and a prefix-length table that is not
    empty the binary search of find_alignment never returns, whatever
    depth of recursion it is allowed: it walks left to [hi = -1], reads
    [exons[-1]], the last row, and from then on calls itself with
    [(0, -2)]. *)
Theorem find_alignment_position_before_table (exons : list exon_row)
    (pos read_len : Z) :
  table_from 0 exons -> exons <> [] -> pos < 0 ->
  (forall calls,
     find_start_location calls exons pos 0 (Z.of_nat (length exons)) = Diverges)
  /\ find_alignment read_len pos exons = Diverges.
Proof.
  intros Ht Hne Hpos.
  assert (Hall : forall calls,
             find_start_location calls exons pos 0 (Z.of_nat (length exons))
             = Diverges).
  { intros calls. apply find_start_location_before; [exact Hne | | lia].
    apply Forall_forall. intros [[o g] len] Hin.
    destruct (In_nth_error _ _ Hin) as [j Hj].
    destruct (table_row_bounds _ _ _ _ _ _ Ht Hj) as [Ho [Hl _]].
    simpl. lia. }
  split; [exact Hall |]. unfold find_alignment. rewrite Hall. reflexivity.
Qed.

Lemma find_alignment_position_before_table_witness :
  (forall calls,
     find_start_location calls [(0, 100, 4); (4, 200, 4)] (-1) 0 2 = Diverges)
  /\ find_alignment 3 (-1) [(0, 100, 4); (4, 200, 4)] = Diverges.
Proof.
  apply (find_alignment_position_before_table [(0, 100, 4); (4, 200, 4)] (-1) 3).
  - simpl. repeat split; lia.
  - discriminate.
  - lia.
Defined.

(** X5: the empty read matches every isoform at offset 0 with 0
    mismatches, whatever the ceiling: align_to_isoform returns the result
    of find_alignment(0, 0, exons) with count 0, and so raises IndexError
    for an isoform without exons. *)
Theorem empty_read_matches_at_zero (MAX : nat) (isoform : str)
    (exons : list exon_row) :
  align_to_isoform MAX [] isoform exons
  = (a <- find_alignment 0 0 exons ;; Ok (Found a 0))
  /\ align_to_isoform MAX [] isoform [] = IndexError.
Proof.
  assert (E : forall ex,
             align_to_isoform MAX [] isoform ex
             = (a <- find_alignment 0 0 ex ;; Ok (Found a 0))).
  { intros ex. unfold align_to_isoform.
    rewrite (scan_offsets_spec MAX [] isoform _ None (range_fits [] isoform)).
    cbn [bind]. unfold range. simpl length.
    replace (Z.to_nat (Z.of_nat (length isoform) - Z.of_nat 0 + 1))
      with (S (length isoform)) by lia.
    cbn [seq fold_left]. unfold pick at 2. cbn [count_at mismatch_count better].
    simpl. rewrite pick_zero_stays. reflexivity. }
  split; [apply E |]. rewrite E. reflexivity.
Qed.

(** X6: a match returned by align_to_isoform is the first best window:
    the count is the number of mismatches of the read at some offset [i],
    it is within the ceiling, no window of the isoform has fewer
    mismatches, no window at a smaller offset has as few, and the
    alignment is the one find_alignment gives for [i]. *)
Theorem align_to_isoform_first_best (MAX : nat) (read isoform : str)
    (exons : list exon_row) (a : alignment) (m : nat) :
  align_to_isoform MAX read isoform exons = Ok (Found a m) ->
  exists i,
    occurs_at read isoform i m /\ (m <= MAX)%nat
    /\ (forall i' m', occurs_at read isoform i' m' -> (m <= m')%nat)
    /\ (forall i' m', occurs_at read isoform i' m' -> (i' < i)%nat ->
          (m < m')%nat)
    /\ find_alignment (Z.of_nat (length read)) (Z.of_nat i) exons = Ok a.
Proof. intros H. exact (align_to_isoform_result MAX read isoform exons _ H). Qed.

Lemma align_to_isoform_first_best_witness :
  exists i,
    occurs_at (chars "CGTA") (chars "AACGTTAG") i 1 /\ (1 <= 6)%nat
    /\ (forall i' m',
          occurs_at (chars "CGTA") (chars "AACGTTAG") i' m' -> (1 <= m')%nat)
    /\ (forall i' m',
          occurs_at (chars "CGTA") (chars "AACGTTAG") i' m' -> (i' < i)%nat ->
          (1 < m')%nat)
    /\ find_alignment (Z.of_nat (length (chars "CGTA"))) (Z.of_nat i)
         [(0, 100, 4); (4, 200, 4)]
       = Ok [(0, 102, 2); (2, 200, 2)].
Proof.
  apply (align_to_isoform_first_best 6 (chars "CGTA") (chars "AACGTTAG")
           [(0, 100, 4); (4, 200, 4)] [(0, 102, 2); (2, 200, 2)] 1).
  vm_compute. reflexivity.
Defined.

(** X7: a match returned by align_to_transcriptome is the best of the
    whole transcriptome: its count and alignment belong to a window of one
    of the isoforms, and no window of any isoform has fewer mismatches. *)
Theorem align_to_transcriptome_fewest (MAX : nat) (read : str)
    (t : transcriptome) (a : alignment) (m : nat) :
  align_to_transcriptome MAX read t = Ok (Found a m) ->
  (exists e i,
     In e (isoforms_of t) /\ occurs_at read (fst e) i m
     /\ find_alignment (Z.of_nat (length read)) (Z.of_nat i) (snd e) = Ok a)
  /\ forall e i m',
       In e (isoforms_of t) -> occurs_at read (fst e) i m' -> (m <= m')%nat.
Proof.
  intros H. rewrite align_to_transcriptome_entries in H.
  pose proof (over_entries_all_returned MAX read _ _ _ H) as Hall.
  destruct (over_entries_source MAX read _ _ _ H) as [Habs | [e [He Hr]]];
    [discriminate |].
  destruct (align_to_isoform_result MAX read _ _ _ Hr)
    as [i [Hocc [Hmax [_ [_ Hfa]]]]].
  split; [exists e, i; repeat split; try assumption; apply Hocc |].
  intros e' i' m' He' Hocc'.
  destruct (over_entries_least MAX read (isoforms_of t) NoMatch Hall)
    as [r [Hr' [_ Hleast]]].
  rewrite H in Hr'. injection Hr' as <-.
  unfold all_align in Hall. rewrite Forall_forall in Hall.
  destruct (Hall _ He') as [r' [Hr'' _]].
  pose proof (align_to_isoform_result MAX read _ _ _ Hr'') as Hres.
  destruct r' as [| a' m''].
  - specialize (Hres _ _ Hocc'). lia.
  - destruct Hres as [j [_ [_ [Hmin _]]]]. specialize (Hmin _ _ Hocc').
    specialize (Hleast _ _ _ He' Hr''). simpl in Hleast. lia.
Qed.

Lemma align_to_transcriptome_fewest_witness :
  (exists e i,
     In e (isoforms_of Examples.two_genes)
     /\ occurs_at Examples.junction_read (fst e) i 0
     /\ find_alignment (Z.of_nat (length Examples.junction_read)) (Z.of_nat i)
          (snd e)
        = Ok [(0, 502, 5)])
  /\ forall e i m',
       In e (isoforms_of Examples.two_genes) ->
       occurs_at Examples.junction_read (fst e) i m' -> (0 <= m')%nat.
Proof.
  apply (align_to_transcriptome_fewest 6 Examples.junction_read
           Examples.two_genes [(0, 502, 5)] 0).
  vm_compute. reflexivity.
Defined.

(** X8: align_to_transcriptome does not skip an isoform whose alignment
    raises: if align_to_isoform does not return for one isoform of the
    transcriptome, align_to_transcriptome does not return either, even
    when other isoforms hold the read. *)
Theorem align_to_transcriptome_raises_with_isoform (MAX : nat) (read : str)
    (t : transcriptome) (e : entry) :
  In e (isoforms_of t) ->
  (forall r, align_to_isoform MAX read (fst e) (snd e) <> Ok r) ->
  forall r, align_to_transcriptome MAX read t <> Ok r.
Proof.
  intros He Hraise r H. rewrite align_to_transcriptome_entries in H.
  pose proof (over_entries_all_returned MAX read _ _ _ H) as Hall.
  unfold all_align in Hall. rewrite Forall_forall in Hall.
  destruct (Hall _ He) as [r' [Hr' _]]. exact (Hraise _ Hr').
Qed.

Lemma align_to_transcriptome_raises_with_isoform_witness :
  align_to_isoform 6 Examples.junction_read (chars "AACGTTAG") [(0, 100, 4)]
  = IndexError
  /\ forall r,
       align_to_transcriptome 6 Examples.junction_read
         [("gene1"%string,
           [("iso1"%string, Examples.one_exon);
            ("iso2"%string, (chars "AACGTTAG", [(0, 100, 4)]))])]
       <> Ok r.
Proof.
  split; [vm_compute; reflexivity |].
  apply (align_to_transcriptome_raises_with_isoform 6 Examples.junction_read _
           (chars "AACGTTAG", [(0, 100, 4)])).
  - right. left. reflexivity.
  - intros r H. vm_compute in H. discriminate H.
Defined.

(** X9: the exons can be read back from what the cell builds for an
    isoform: the genome start and the genome end (start plus length) of
    the rows of the table are the starts and ends of the exons, in order,
    and the isoform string is the concatenation of the slices
    [genome_sequence[ex.start:ex.end]]. *)
Theorem built_entry_reads_back (genome_sequence : str) (iso : Isoform) :
  map (fun r : exon_row => (snd (fst r), snd (fst r) + snd r))
    (snd (build_entry genome_sequence iso))
  = map (fun ex => (exon_start ex, exon_end ex)) (isoform_exons iso)
  /\ fst (build_entry genome_sequence iso)
     = concat (map (fun ex => slice genome_sequence (exon_start ex) (exon_end ex))
                 (isoform_exons iso)).
Proof.
  unfold build_entry.
  destruct (add_exons_closed_form genome_sequence (isoform_exons iso) [] [] 0)
    as [H1 H2].
  split; [exact H1 | exact H2].
Qed.

(** X10: when the exons of an isoform lie in the genome and have
    [end > start], the table built for it maps the isoform back to the
    genome: for every row [(o, g, len)] and every [0 <= d < len], symbol
    [o + d] of the isoform string is symbol [g + d] of the genome. *)
Theorem built_isoform_spells_genome (genome_sequence : str) (iso : Isoform) :
  Forall (exon_in genome_sequence) (isoform_exons iso) ->
  Forall (row_spells genome_sequence (fst (build_entry genome_sequence iso)))
    (snd (build_entry genome_sequence iso)).
Proof. apply build_entry_spells. Qed.

Lemma built_isoform_spells_genome_witness :
  Forall (row_spells Examples.small_genome (chars "AACGTTAG"))
    [(0, 2, 4); (4, 9, 4)].
Proof.
  apply (built_isoform_spells_genome Examples.small_genome
           {| isoform_id := "iso1";
              isoform_exons :=
                [{| exon_id := "e1"; exon_start := 2; exon_end := 6 |};
                 {| exon_id := "e2"; exon_start := 9; exon_end := 13 |}] |}).
  repeat constructor; simpl; lia.
Defined.

(** X11: an alignment with 0 mismatches returned for a transcriptome
    built from a genome spells the read on the genome: for every piece
    [(read_start, reference_start, length)] and every [0 <= d < length],
    symbol [read_start + d] of the read is symbol [reference_start + d] of
    the genome. *)
Theorem exact_alignment_spells_read (MAX : nat) (genome_sequence read : str)
    (genes : list Gene) (a : alignment) :
  Forall (fun gene =>
            Forall (fun iso => isoform_exons iso <> []
                               /\ Forall (exon_in genome_sequence)
                                    (isoform_exons iso))
                   (gene_isoforms gene))
         genes ->
  align_to_transcriptome MAX read (build_transcriptome genome_sequence genes)
  = Ok (Found a 0) ->
  forall p d,
    In p a -> 0 <= d < piece_length p ->
    exists c,
      nth_error read (Z.to_nat (read_start p + d)) = Some c
      /\ nth_error genome_sequence (Z.to_nat (reference_start p + d)) = Some c.
Proof.
  intros Hgenes H p d Hp Hd. rewrite align_to_transcriptome_entries in H.
  destruct (over_entries_source MAX read _ _ _ H) as [Habs | [e [He Hr]]];
    [discriminate |].
  destruct (built_entries _ _ _ He) as [gene [iso [Hgene [Hiso ->]]]].
  rewrite Forall_forall in Hgenes. pose proof (Hgenes _ Hgene) as Hisos.
  rewrite Forall_forall in Hisos. destruct (Hisos _ Hiso) as [Hne Hin].
  pose proof (build_entry_well_formed genome_sequence iso Hne Hin) as Hwf.
  pose proof (build_entry_spells genome_sequence iso Hin) as Hsp.
  destruct (build_entry genome_sequence iso) as [isoform exons] eqn:Hb.
  simpl in Hr, Hsp.
  destruct (matched_offset_in_table MAX read isoform exons a 0 Hwf Hr)
    as [i [[Hfit Hc] [Hfa Hi]]].
  destruct Hwf as [_ [Ht Hlen]]. simpl in Ht, Hlen.
  destruct (find_alignment_window exons (Z.of_nat i) (Z.of_nat (length read))
              Ht Hi) as [a' [Ha' [Hch [Htot Hall]]]]; [lia | lia |].
  rewrite Hfa in Ha'. injection Ha' as <-.
  rewrite Forall_forall in Hall. destruct (Hall _ Hp) as [Hl Hcar].
  assert (Hnn : Forall (fun q => 0 <= piece_length q) a)
    by (apply Forall_forall; intros q Hq; apply (Hall _ Hq)).
  destruct (chained_within a 0 p Hch Hnn Hp) as [Hlo Hhi].
  rewrite Htot in Hhi.
  destruct Hcar as [o [g [len [Hrow [Ho [Hend Href]]]]]].
  rewrite Forall_forall in Hsp. pose proof (Hsp _ Hrow) as [Ho0 [Hg0 Hspell]].
  assert (Hj : (Z.to_nat (read_start p + d) < length read)%nat) by lia.
  destruct (nth_error read (Z.to_nat (read_start p + d))) as [c |] eqn:Hread;
    [| apply nth_error_None in Hread; lia].
  exists c. split; [reflexivity |].
  rewrite <- Hread.
  rewrite (mismatch_count_zero read (skipn i isoform)); [| | exact Hc | exact Hj].
  - rewrite nth_error_skipn.
    specialize (Hspell (Z.of_nat i + read_start p - o + d)).
    replace (i + Z.to_nat (read_start p + d))%nat
      with (Z.to_nat (o + (Z.of_nat i + read_start p - o + d))) by lia.
    rewrite Hspell by lia. f_equal. lia.
  - rewrite length_skipn. lia.
Qed.

Lemma exact_alignment_spells_read_witness :
  exists c,
    nth_error Examples.junction_read
      (Z.to_nat (read_start (3, 9, 2) + 1)) = Some c
    /\ nth_error Examples.small_genome
         (Z.to_nat (reference_start (3, 9, 2) + 1)) = Some c.
Proof.
  apply (exact_alignment_spells_read 6 Examples.small_genome
           Examples.junction_read Examples.small_genes
           [(0, 3, 3); (3, 9, 2)]).
  - repeat constructor; simpl; try lia; discriminate.
  - reflexivity.
  - right. left. reflexivity.
  - simpl. lia.
Defined.

(** X12: the transcriptome the cell builds from exons that lie in the
    genome and have [end > start], each isoform with at least one exon, is
    made of prefix-length tables: in every entry the table has a row, its
    first row starts at offset 0, every row has a positive length and
    starts where the row before it ends, and the isoform string is as
    long as the rows together. *)
Theorem built_transcriptome_tables (genome_sequence : str)
    (genes : list Gene) :
  Forall (fun gene =>
            Forall (fun iso => isoform_exons iso <> []
                               /\ Forall (exon_in genome_sequence)
                                    (isoform_exons iso))
                   (gene_isoforms gene))
         genes ->
  Forall well_formed (isoforms_of (build_transcriptome genome_sequence genes)).
Proof.
  intros Hgenes. apply Forall_forall. intros e He.
  destruct (built_entries _ _ _ He) as [gene [iso [Hgene [Hiso ->]]]].
  rewrite Forall_forall in Hgenes. pose proof (Hgenes _ Hgene) as Hisos.
  rewrite Forall_forall in Hisos. destruct (Hisos _ Hiso) as [Hne Hin].
  apply build_entry_well_formed; assumption.
Qed.

Lemma built_transcriptome_tables_witness :
  Forall well_formed
    (isoforms_of (build_transcriptome Examples.small_genome Examples.small_genes)).
Proof.
  apply (built_transcriptome_tables Examples.small_genome Examples.small_genes).
  repeat constructor; simpl; try lia; discriminate.
Defined.

End AlignerProperties.

(** * Further properties of the seed functions *)

Module SeedsMore.
Import Seeds SeedsFacts.

(** The matcher of the index counts the symbols it consumed. *)
Lemma backward_search_matched M occ unread :
  forall lo hi matched,
    matched <= snd (FMIndex.backward_search M occ unread lo hi matched)
    <= matched + Z.of_nat (List.length unread).
Proof.
  induction unread as [| c unread IH]; intros lo hi matched; simpl.
  - lia.
  - destruct (M c + occ c lo >=? M c + occ c hi); simpl; [lia |].
    specialize (IH (M c + occ c lo) (M c + occ c hi) (matched + 1)). lia.
Qed.

Lemma exact_suffix_matches_bounded text p :
  0 <= snd (FMIndex.exact_suffix_matches text p) <= Z.of_nat (List.length p).
Proof.
  unfold FMIndex.exact_suffix_matches.
  pose proof (backward_search_matched
                (FMIndex.get_M text)
                (FMIndex.get_occ
                   (FMIndex.get_bwt text (FMIndex.get_suffix_array text)))
                (rev p) 0 (Z.of_nat (List.length text)) 0) as H.
  rewrite length_rev in H. lia.
Qed.

Section Index.

Variable sa : list Z.
Variable exact_suffix_matches : str -> (Z * Z) * Z.

Lemma improve_within rounds read_sequence mismatches best :
  counts_symbols exact_suffix_matches ->
  improve exact_suffix_matches rounds read_sequence
    (Z.of_nat (List.length read_sequence))
    (snd (exact_suffix_matches read_sequence)) mismatches
    (exact_suffix_matches read_sequence, read_sequence, 0) true = Ok best ->
  0 <= cand_length best <= Z.of_nat (List.length read_sequence)
  /\ List.length (cand_read best) = List.length read_sequence.
Proof.
  intros Hm H.
  pose proof (improve_one_mismatch exact_suffix_matches _ _ _ _ H) as [_ Hlen].
  split; [| exact Hlen].
  apply improve_single_round in H.
  destruct H as [-> | [observed [b [Hx [Hidx [_ [_ [-> _]]]]]]]].
  - unfold cand_length. simpl. apply Hm.
  - unfold cand_length. simpl.
    pose proof (Hm (replace_base_at_index read_sequence
                      (Z.of_nat (List.length read_sequence)
                       - snd (exact_suffix_matches read_sequence) - 1) b)) as Hb.
    rewrite replace_length in Hb; [exact Hb |].
    split; [exact Hidx | eapply py_index_bound; exact Hx].
Qed.

Lemma find_seeds_lengths k :
  counts_symbols exact_suffix_matches ->
  forall read_sequence mismatches seeds,
    find_seeds sa exact_suffix_matches read_sequence mismatches k = Ok seeds ->
    Forall (fun x => 0 <= seed_length x
                     /\ Z.of_nat (List.length (seed_tail x)) = seed_length x)
      seeds
    /\ total_seed_length seeds <= Z.of_nat (List.length read_sequence).
Proof.
  intros Hm. induction k as [| k IH]; intros read_sequence mismatches seeds H.
  - inversion H. split; [constructor |]. unfold total_seed_length. simpl. lia.
  - apply find_seeds_step in H.
    destruct H as [best [positions [Hbest [_ Hcase]]]].
    apply (improve_within _ _ _ _ Hm) in Hbest.
    destruct Hbest as [Hl Hsame]. rewrite length_rev in Hl, Hsame.
    assert (Htail : Z.of_nat
                      (List.length
                         (slice_from (cand_read best)
                            (Z.of_nat (List.length (rev read_sequence))
                             - cand_length best)))
                    = cand_length best).
    { unfold slice_from, clip. rewrite length_skipn, length_rev, Hsame.
      destruct (Z.ltb_spec (Z.of_nat (List.length read_sequence)
                            - cand_length best) 0); lia. }
    destruct Hcase as [[-> _] | [more [-> [_ Hmore]]]].
    + split; [constructor; [| constructor] |].
      * unfold seed_length, seed_tail. simpl. split; [lia | exact Htail].
      * unfold total_seed_length, seed_length. simpl. lia.
    + apply IH in Hmore. destruct Hmore as [Hall Htot].
      split; [constructor; [| exact Hall] |].
      * unfold seed_length, seed_tail. simpl. split; [lia | exact Htail].
      * unfold total_seed_length in *. simpl. unfold seed_length at 1. simpl.
        assert (Hrem : Z.of_nat
                         (List.length
                            (slice_to (cand_read best)
                               (Z.of_nat (List.length (cand_read best))
                                - cand_length best)))
                       = Z.of_nat (List.length read_sequence) - cand_length best).
        { unfold slice_to, clip. rewrite length_firstn, Hsame.
          destruct (Z.ltb_spec (Z.of_nat (List.length read_sequence)
                                - cand_length best) 0); lia. }
        lia.
Qed.

(** With no budget the loop does not start. *)
Lemma improve_no_budget rounds read_sequence len_read length mismatches c :
  mismatches <= cand_misses c ->
  improve exact_suffix_matches rounds read_sequence len_read length mismatches
    c true = Ok c.
Proof.
  intros H. destruct rounds; simpl;
    destruct (Z.ltb_spec (cand_misses c) mismatches); simpl; try lia; reflexivity.
Qed.

Lemma find_seeds_no_budget k :
  forall read_sequence mismatches seeds,
    mismatches <= 0 ->
    find_seeds sa exact_suffix_matches read_sequence mismatches k = Ok seeds ->
    Forall (fun x => seed_mismatches x = 0) seeds.
Proof.
  induction k as [| k IH]; intros read_sequence mismatches seeds Hm H.
  - inversion H. constructor.
  - apply find_seeds_step in H.
    destruct H as [best [positions [Hbest [_ Hcase]]]].
    rewrite improve_no_budget in Hbest by (unfold cand_misses; simpl; lia).
    injection Hbest as <-.
    destruct Hcase as [[-> _] | [more [-> [_ Hmore]]]].
    + constructor; [reflexivity | constructor].
    + constructor; [reflexivity |].
      eapply IH; [| exact Hmore]. unfold cand_misses. simpl. lia.
Qed.

(** The best of the while loop is the answer of the matcher for the read
    it carries. *)
Lemma improve_is_a_match rounds read_sequence mismatches best :
  improve exact_suffix_matches rounds read_sequence
    (Z.of_nat (List.length read_sequence))
    (snd (exact_suffix_matches read_sequence)) mismatches
    (exact_suffix_matches read_sequence, read_sequence, 0) true = Ok best ->
  exact_suffix_matches (cand_read best) = (cand_range best, cand_length best).
Proof.
  intros H. apply improve_single_round in H.
  destruct H as [-> | [observed [b [_ [_ [_ [_ [-> _]]]]]]]];
    unfold cand_read, cand_range, cand_length; simpl;
    apply surjective_pairing.
Qed.

Lemma find_seeds_bounds k :
  forall read_sequence mismatches seeds,
    find_seeds sa exact_suffix_matches read_sequence mismatches k = Ok seeds ->
    Forall (fun x =>
              exists query lo hi at_lo at_hi,
                exact_suffix_matches query = ((lo, hi), seed_length x)
                /\ py_index sa lo = Some at_lo
                /\ py_index sa hi = Some at_hi
                /\ seed_positions x = [at_lo; at_hi]
                /\ seed_tail x
                   = slice_from query
                       (Z.of_nat (List.length query) - seed_length x))
      seeds.
Proof.
  induction k as [| k IH]; intros read_sequence mismatches seeds H.
  - inversion H. constructor.
  - apply find_seeds_step in H.
    destruct H as [best [positions [Hbest [Hpos Hcase]]]].
    pose proof (improve_is_a_match _ _ _ _ Hbest) as Hmatch.
    pose proof (improve_one_mismatch exact_suffix_matches _ _ _ _ Hbest)
      as [_ Hlen].
    apply positions_of_two in Hpos.
    destruct Hpos as [at_lo [at_hi [-> [Hlo Hhi]]]].
    assert (Hfirst :
              exists query lo hi a b,
                exact_suffix_matches query = ((lo, hi), cand_length best)
                /\ py_index sa lo = Some a /\ py_index sa hi = Some b
                /\ [at_lo; at_hi] = [a; b]
                /\ slice_from (cand_read best)
                     (Z.of_nat (List.length (rev read_sequence))
                      - cand_length best)
                   = slice_from query
                       (Z.of_nat (List.length query) - cand_length best)).
    { exists (cand_read best), (fst (cand_range best)),
        (snd (cand_range best)), at_lo, at_hi.
      split; [rewrite Hmatch; f_equal; apply surjective_pairing |].
      split; [exact Hlo |]. split; [exact Hhi |]. split; [reflexivity |].
      rewrite Hlen. reflexivity. }
    destruct Hcase as [[-> _] | [more [-> [_ Hmore]]]].
    + constructor; [exact Hfirst | constructor].
    + constructor; [exact Hfirst | eapply IH; exact Hmore].
Qed.

End Index.

End SeedsMore.

Module SeedsProperties.
Import Seeds SeedsFacts SeedsMore.

(** X13: whatever the suffix array, the matcher, the budget and the seed
    count, every seed that find_seeds reports has 0 or 1 mismatch: after
    its first round the while loop only tries again the reads of the
    first round. *)
Theorem seeds_have_at_most_one_mismatch (sa : list Z)
    (exact_suffix_matches : str -> (Z * Z) * Z)
    (read_sequence : str) (mismatches : Z) (k : nat) (seeds : list seed) :
  find_seeds sa exact_suffix_matches read_sequence mismatches k = Ok seeds ->
  Forall (fun x => seed_mismatches x = 0 \/ seed_mismatches x = 1) seeds.
Proof. apply find_seeds_one_mismatch. Qed.

Lemma seeds_have_at_most_one_mismatch_witness :
  Forall (fun x => seed_mismatches x = 0 \/ seed_mismatches x = 1)
    [([2; 7], 5, 1, chars "TTACA"); ([0; 9], 1, 0, chars "G");
     ([5; 0], 1, 0, chars "C")].
Proof.
  apply (seeds_have_at_most_one_mismatch
           (FMIndex.get_suffix_array Examples.gattaca)
           (FMIndex.exact_suffix_matches Examples.gattaca)
           Examples.two_off_read 6 3).
  vm_compute. reflexivity.
Defined.

(** X14: every seed that find_seeds reports carries exactly two genome
    positions, [sa[lo]] and [sa[hi]], where [(lo, hi)] is the interval the
    matcher returns for a query of which the seed is the matched tail:
    the matcher returns the length of the seed for that query, and the
    sequence of the seed is its last [length] symbols.  This holds
    whatever the width [hi - lo] of the interval. *)
Theorem seeds_have_two_positions (sa : list Z)
    (exact_suffix_matches : str -> (Z * Z) * Z)
    (read_sequence : str) (mismatches : Z) (k : nat) (seeds : list seed) :
  find_seeds sa exact_suffix_matches read_sequence mismatches k = Ok seeds ->
  Forall (fun x =>
            exists query lo hi at_lo at_hi,
              exact_suffix_matches query = ((lo, hi), seed_length x)
              /\ py_index sa lo = Some at_lo
              /\ py_index sa hi = Some at_hi
              /\ seed_positions x = [at_lo; at_hi]
              /\ seed_tail x
                 = slice_from query
                     (Z.of_nat (List.length query) - seed_length x))
    seeds.
Proof. apply find_seeds_bounds. Qed.

Lemma seeds_have_two_positions_witness :
  Forall (fun x =>
            exists query lo hi at_lo at_hi,
              FMIndex.exact_suffix_matches Examples.repeats query
              = ((lo, hi), seed_length x)
              /\ py_index (FMIndex.get_suffix_array Examples.repeats) lo
                 = Some at_lo
              /\ py_index (FMIndex.get_suffix_array Examples.repeats) hi
                 = Some at_hi
              /\ seed_positions x = [at_lo; at_hi]
              /\ seed_tail x
                 = slice_from query
                     (Z.of_nat (List.length query) - seed_length x))
    [([8; 9], 4, 0, chars "ACGT")].
Proof.
  apply (seeds_have_two_positions
           (FMIndex.get_suffix_array Examples.repeats)
           (FMIndex.exact_suffix_matches Examples.repeats)
           (chars "TGCA") 6 1).
  vm_compute. reflexivity.
Defined.

(** X15: when the matcher matches the whole reversed read, find_seeds
    with a seed count of 1 or more reports one seed and does not call
    itself again, whatever the budget: the seed has the length of the
    read, 0 mismatches and the reversed read as its tail. *)
Theorem whole_read_is_one_seed (sa : list Z)
    (exact_suffix_matches : str -> (Z * Z) * Z)
    (read_sequence : str) (mismatches : Z) (k : nat) (_range : Z * Z) :
  exact_suffix_matches (rev read_sequence)
  = (_range, Z.of_nat (List.length read_sequence)) ->
  find_seeds sa exact_suffix_matches read_sequence mismatches (S k)
  = (positions <- positions_of sa _range ;;
     Ok [(positions, Z.of_nat (List.length read_sequence), 0,
          rev read_sequence)]).
Proof.
  intros E. cbn [find_seeds]. rewrite E, length_rev.
  assert (Hstop : forall rounds,
             improve exact_suffix_matches rounds (rev read_sequence)
               (Z.of_nat (List.length read_sequence))
               (Z.of_nat (List.length read_sequence)) mismatches
               (_range, Z.of_nat (List.length read_sequence),
                rev read_sequence, 0) true
             = Ok (_range, Z.of_nat (List.length read_sequence),
                   rev read_sequence, 0)).
  { intros rounds. destruct rounds; simpl; unfold cand_length; simpl;
      rewrite Z.ltb_irrefl, andb_false_r; reflexivity. }
  rewrite Hstop. cbn [bind]. unfold cand_range, cand_length, cand_misses,
    cand_read. simpl fst. simpl snd.
  destruct (positions_of sa _range) as [positions | |]; cbn [bind];
    try reflexivity.
  rewrite Z.eqb_refl, Z.sub_diag. unfold slice_from, clip. simpl.
  rewrite Nat.min_0_r. reflexivity.
Qed.

Lemma whole_read_is_one_seed_witness :
  find_seeds (FMIndex.get_suffix_array Examples.repeats)
    (FMIndex.exact_suffix_matches Examples.repeats) (chars "TGCATGCA") 6 3
  = (positions <- positions_of (FMIndex.get_suffix_array Examples.repeats) (2, 4) ;;
     Ok [(positions, 8, 0, rev (chars "TGCATGCA"))]).
Proof.
  apply (whole_read_is_one_seed (FMIndex.get_suffix_array Examples.repeats)
           (FMIndex.exact_suffix_matches Examples.repeats)
           (chars "TGCATGCA") 6 2 (2, 4)).
  vm_compute. reflexivity.
Defined.

(** X16: when the length the matcher returns is the number of symbols it
    consumed (between 0 and the length of its query), every seed of
    find_seeds has a tail as long as its length, and the lengths of the
    seeds sum to at most the length of the read. *)
Theorem seeds_cover_at_most_the_read (sa : list Z)
    (exact_suffix_matches : str -> (Z * Z) * Z)
    (read_sequence : str) (mismatches : Z) (k : nat) (seeds : list seed) :
  counts_symbols exact_suffix_matches ->
  find_seeds sa exact_suffix_matches read_sequence mismatches k = Ok seeds ->
  Forall (fun x => 0 <= seed_length x
                   /\ Z.of_nat (List.length (seed_tail x)) = seed_length x)
    seeds
  /\ total_seed_length seeds <= Z.of_nat (List.length read_sequence).
Proof. intros Hm. apply find_seeds_lengths. exact Hm. Qed.

Lemma seeds_cover_at_most_the_read_witness :
  let seeds := [([2; 7], 5, 1, chars "TTACA"); ([0; 9], 1, 0, chars "G");
                ([5; 0], 1, 0, chars "C")] in
  Forall (fun x => 0 <= seed_length x
                   /\ Z.of_nat (List.length (seed_tail x)) = seed_length x)
    seeds
  /\ total_seed_length seeds <= Z.of_nat (List.length Examples.two_off_read).
Proof.
  apply (seeds_cover_at_most_the_read
           (FMIndex.get_suffix_array Examples.gattaca)
           (FMIndex.exact_suffix_matches Examples.gattaca)
           Examples.two_off_read 6 3).
  - intros p. apply exact_suffix_matches_bounded.
  - vm_compute. reflexivity.
Defined.

(** X17: the first seed of find_seeds is the exact match of the reversed
    read, or that match with one symbol changed at the first unmatched
    position: then it is longer than the exact match and as long as the
    longest match that any of the four bases gives at that position. *)
Theorem first_seed_is_best_single_change (sa : list Z)
    (exact_suffix_matches : str -> (Z * Z) * Z)
    (read_sequence : str) (mismatches : Z) (k : nat)
    (first : seed) (more : list seed) :
  find_seeds sa exact_suffix_matches read_sequence mismatches (S k)
  = Ok (first :: more) ->
  let query := rev read_sequence in
  let length := snd (exact_suffix_matches query) in
  let idx := Z.of_nat (List.length query) - length - 1 in
  (seed_mismatches first = 0 /\ seed_length first = length)
  \/ (seed_mismatches first = 1 /\ length < seed_length first
      /\ (exists b,
            In b BASES
            /\ seed_length first
               = snd (exact_suffix_matches
                        (replace_base_at_index query idx b)))
      /\ forall b, In b BASES ->
           snd (exact_suffix_matches (replace_base_at_index query idx b))
           <= seed_length first).
Proof.
  intros H query length idx. apply find_seeds_step in H.
  destruct H as [best [positions [Hbest [_ Hcase]]]].
  apply improve_single_round in Hbest.
  assert (Hfirst : seed_mismatches first = cand_misses best
                   /\ seed_length first = cand_length best).
  { destruct Hcase as [[E _] | [more' [E _]]]; injection E as -> _;
      split; reflexivity. }
  destruct Hfirst as [-> ->].
  destruct Hbest as [-> | [observed [b [_ [_ [Hb [_ [-> [Hlt Hall]]]]]]]]].
  - left. split; reflexivity.
  - right. split; [reflexivity |]. split; [exact Hlt |].
    split; [exists b; split; [exact Hb | reflexivity] | exact Hall].
Qed.

Lemma first_seed_is_best_single_change_witness :
  let esm := FMIndex.exact_suffix_matches Examples.gattaca in
  let first : seed := ([2; 7], 5, 1, chars "TTACA") in
  let query := rev Examples.two_off_read in
  let length := snd (esm query) in
  let idx := Z.of_nat (List.length query) - length - 1 in
  (seed_mismatches first = 0 /\ seed_length first = length)
  \/ (seed_mismatches first = 1 /\ length < seed_length first
      /\ (exists b,
            In b BASES
            /\ seed_length first
               = snd (esm (replace_base_at_index query idx b)))
      /\ forall b, In b BASES ->
           snd (esm (replace_base_at_index query idx b)) <= seed_length first).
Proof.
  apply (first_seed_is_best_single_change
           (FMIndex.get_suffix_array Examples.gattaca)
           (FMIndex.exact_suffix_matches Examples.gattaca)
           Examples.two_off_read 6 0 ([2; 7], 5, 1, chars "TTACA") []).
  vm_compute. reflexivity.
Defined.

(** X18: with a budget of 0 or less find_seeds changes no symbol: every
    seed it reports has 0 mismatches (so with a negative budget the count
    of a seed is above the budget). *)
Theorem no_budget_no_mismatch (sa : list Z)
    (exact_suffix_matches : str -> (Z * Z) * Z)
    (read_sequence : str) (mismatches : Z) (k : nat) (seeds : list seed) :
  mismatches <= 0 ->
  find_seeds sa exact_suffix_matches read_sequence mismatches k = Ok seeds ->
  Forall (fun x => seed_mismatches x = 0) seeds.
Proof. apply find_seeds_no_budget. Qed.

Lemma no_budget_no_mismatch_witness :
  Forall (fun x => seed_mismatches x = 0)
    [([5; 0], 2, 0, chars "CA"); ([0; 9], 1, 0, chars "G")].
Proof.
  apply (no_budget_no_mismatch
           (FMIndex.get_suffix_array Examples.gattaca)
           (FMIndex.exact_suffix_matches Examples.gattaca)
           Examples.two_off_read 0 2).
  - lia.
  - vm_compute. reflexivity.
Defined.

End SeedsProperties.

(** * Further properties of the seed filter and of the replacement *)

Module FilterFacts.
Import Seeds.

Lemma rows_of_interval {A : Type} (l : list A) (n a : nat) :
  (a + n <= length l)%nat ->
  Forall2 (fun i v => py_index l i = Some v)
    (map Z.of_nat (seq a n)) (firstn n (skipn a l)).
Proof.
  revert a. induction n as [| n IH]; intros a Hlen; [constructor |].
  destruct (nth_error l a) as [x |] eqn:Hx;
    [| apply nth_error_None in Hx; lia].
  rewrite (skipn_nth_cons _ _ _ Hx). simpl. constructor.
  - rewrite py_index_nonneg. exact Hx.
  - apply IH. lia.
Qed.

Lemma range2_rows (lo hi : Z) :
  0 <= lo ->
  range2 lo hi = map Z.of_nat (seq (Z.to_nat lo) (Z.to_nat (hi - lo))).
Proof.
  intros Hlo. unfold range2.
  assert (H : forall n s,
             map (fun d => lo + Z.of_nat d) (seq s n)
             = map Z.of_nat (seq (Z.to_nat lo + s) n)).
  { induction n as [| n IH]; intros s; [reflexivity |]. simpl.
    rewrite IH. f_equal; [lia |]. rewrite Nat.add_succ_r. reflexivity. }
  rewrite H, Nat.add_0_r. reflexivity.
Qed.

Lemma interval_values (sa : list Z) (lo hi : Z) :
  0 <= lo -> lo <= hi -> hi <= Z.of_nat (length sa) ->
  Forall2 (fun i v => py_index sa i = Some v) (range2 lo hi) (slice sa lo hi).
Proof.
  intros Hlo Hle Hhi. rewrite range2_rows by exact Hlo. unfold slice, clip.
  destruct (Z.ltb_spec lo 0); [lia |]. destruct (Z.ltb_spec hi 0); [lia |].
  replace (Nat.min (length sa) (Z.to_nat hi) - Nat.min (length sa) (Z.to_nat lo))%nat
    with (Z.to_nat (hi - lo)) by lia.
  replace (Nat.min (length sa) (Z.to_nat lo)) with (Z.to_nat lo) by lia.
  apply rows_of_interval. lia.
Qed.

(** A row that is not in the suffix array makes the loop raise. *)
Lemma check_rows_raises sa genome_sequence rows length high_bound :
  forall valid_seeds,
    (exists i, In i rows /\ py_index sa i = None) ->
    check_rows sa genome_sequence rows length high_bound valid_seeds
    = IndexError.
Proof.
  induction rows as [| i rows IH]; intros acc [j [Hj Hnone]]; [destruct Hj |].
  simpl. unfold index.
  destruct (py_index sa i) as [v |] eqn:Hi; [| reflexivity]. cbn [bind].
  apply IH. destruct Hj as [-> | Hj]; [congruence |]. exists j. split; assumption.
Qed.

End FilterFacts.

Module FilterProperties.
Import Seeds FilterFacts.

(** X19: for an interval [(lo, hi)] of rows of the suffix array and a
    bound other than 0, check_seeds returns, in the order of the rows, the
    coordinate [len(genome_sequence) + 1 - location] of exactly the
    positions whose gap [high_bound - location] is from 20 to 10000, where
    [location = sa[i] + length]. *)
Theorem check_seeds_filters_by_gap (sa : list Z) (genome_sequence : str)
    (lo hi length high_bound : Z) :
  0 <= lo -> lo <= hi -> hi <= Z.of_nat (List.length sa) -> high_bound <> 0 ->
  check_seeds sa genome_sequence (lo, hi) length (Some high_bound)
  = Ok (map (fun v => Z.of_nat (List.length genome_sequence) + 1 - (v + length))
          (filter (fun v => (MIN_INTRON_SIZE <=? high_bound - (v + length))
                            && (high_bound - (v + length) <=? MAX_INTRON_SIZE))
             (slice sa lo hi))).
Proof.
  intros Hlo Hle Hhi Hnz.
  rewrite (SeedsClaims.check_seeds_filter sa genome_sequence (lo, hi) length
             (Some high_bound) (slice sa lo hi));
    [| apply interval_values; assumption].
  f_equal. f_equal. apply filter_ext. intros v.
  unfold keeps, not_, MIN_INTRON_SIZE, MAX_INTRON_SIZE.
  destruct (Z.eqb_spec high_bound 0); [contradiction |]. simpl.
  destruct (Z.ltb_spec (v + length) high_bound),
    (Z.leb_spec 20 (high_bound - (v + length))),
    (Z.leb_spec (high_bound - (v + length)) 10000); simpl; try reflexivity; lia.
Qed.

Lemma check_seeds_filters_by_gap_witness :
  check_seeds Examples.mirrored_sa Examples.plain_genome (7, 10) 3 (Some 30)
  = Ok (map (fun v => Z.of_nat (List.length Examples.plain_genome) + 1 - (v + 3))
          (filter (fun v => (MIN_INTRON_SIZE <=? 30 - (v + 3))
                            && (30 - (v + 3) <=? MAX_INTRON_SIZE))
             (slice Examples.mirrored_sa 7 10))).
Proof.
  apply (check_seeds_filters_by_gap Examples.mirrored_sa Examples.plain_genome
           7 10 3 30).
  - lia.
  - lia.
  - vm_compute. discriminate.
  - discriminate.
Defined.

(** X20: with no bound check_seeds keeps every position of the interval:
    it returns one coordinate for each row from [lo] to [hi - 1], in
    order. *)
Theorem check_seeds_without_bound (sa : list Z) (genome_sequence : str)
    (lo hi length : Z) :
  0 <= lo -> lo <= hi -> hi <= Z.of_nat (List.length sa) ->
  check_seeds sa genome_sequence (lo, hi) length None
  = Ok (map (fun v => Z.of_nat (List.length genome_sequence) + 1 - (v + length))
          (slice sa lo hi)).
Proof.
  intros Hlo Hle Hhi.
  rewrite (SeedsClaims.check_seeds_filter sa genome_sequence (lo, hi) length
             None (slice sa lo hi));
    [| apply interval_values; assumption].
  f_equal. f_equal. unfold keeps. simpl.
  induction (slice sa lo hi) as [| v l IH]; [reflexivity |].
  simpl. rewrite IH. reflexivity.
Qed.

Lemma check_seeds_without_bound_witness :
  check_seeds Examples.mirrored_sa Examples.plain_genome (7, 10) 3 None
  = Ok (map (fun v => Z.of_nat (List.length Examples.plain_genome) + 1 - (v + 3))
          (slice Examples.mirrored_sa 7 10)).
Proof.
  apply (check_seeds_without_bound Examples.mirrored_sa Examples.plain_genome
           7 10 3).
  - lia.
  - lia.
  - vm_compute. discriminate.
Defined.

(** X21: when the interval is not empty and ends after the last row of the
    suffix array, check_seeds raises IndexError, whatever the bound. *)
Theorem check_seeds_past_the_suffix_array (sa : list Z)
    (genome_sequence : str) (lo hi length : Z) (high_bound : option Z) :
  0 <= lo -> lo < hi -> Z.of_nat (List.length sa) < hi ->
  check_seeds sa genome_sequence (lo, hi) length high_bound = IndexError.
Proof.
  intros Hlo Hlt Hhi. unfold check_seeds. apply check_rows_raises.
  exists (hi - 1). simpl. split.
  - rewrite range2_rows by exact Hlo. apply in_map_iff.
    exists (Z.to_nat (hi - 1)). split; [lia |]. apply in_seq. lia.
  - unfold py_index. destruct (Z.leb_spec 0 (hi - 1)); [| lia].
    apply nth_error_None. lia.
Qed.

Lemma check_seeds_past_the_suffix_array_witness :
  check_seeds Examples.mirrored_sa Examples.plain_genome (11, 14) 1 None
  = IndexError.
Proof.
  apply (check_seeds_past_the_suffix_array Examples.mirrored_sa
           Examples.plain_genome 11 14 1 None).
  - lia.
  - lia.
  - vm_compute. reflexivity.
Defined.

(** X22: for an index inside the read replace_base_at_index keeps the
    length, puts the base at that index and leaves every other symbol
    where it was. *)
Theorem replace_inside (read_sequence : str) (idx : Z) (base : ascii) :
  0 <= idx < Z.of_nat (List.length read_sequence) ->
  List.length (replace_base_at_index read_sequence idx base)
  = List.length read_sequence
  /\ nth_error (replace_base_at_index read_sequence idx base) (Z.to_nat idx)
     = Some base
  /\ forall j, j <> Z.to_nat idx ->
       nth_error (replace_base_at_index read_sequence idx base) j
       = nth_error read_sequence j.
Proof.
  intros Hidx. split; [apply SeedsFacts.replace_length; exact Hidx |].
  unfold replace_base_at_index, slice_to, slice_from, clip.
  destruct (Z.ltb_spec idx 0); [lia |].
  destruct (Z.ltb_spec (idx + 1) 0); [lia |].
  replace (Nat.min (List.length read_sequence) (Z.to_nat idx))
    with (Z.to_nat idx) by lia.
  replace (Nat.min (List.length read_sequence) (Z.to_nat (idx + 1)))
    with (S (Z.to_nat idx)) by lia.
  assert (Hfirst : List.length (firstn (Z.to_nat idx) read_sequence)
                   = Z.to_nat idx) by (rewrite length_firstn; lia).
  split.
  - rewrite nth_error_app2 by lia. rewrite Hfirst, Nat.sub_diag. reflexivity.
  - intros j Hj. destruct (Nat.lt_ge_cases j (Z.to_nat idx)) as [Hlt | Hge].
    + rewrite nth_error_app1 by lia. rewrite nth_error_firstn.
      destruct (Nat.ltb_spec j (Z.to_nat idx)); [reflexivity | lia].
    + rewrite nth_error_app2 by lia. rewrite Hfirst.
      destruct (j - Z.to_nat idx)%nat as [| d] eqn:Hd; [lia |].
      change (nth_error (base :: skipn (S (Z.to_nat idx)) read_sequence) (S d))
        with (nth_error (skipn (S (Z.to_nat idx)) read_sequence) d).
      rewrite nth_error_skipn. f_equal. lia.
Qed.

Lemma replace_inside_witness :
  List.length (replace_base_at_index (chars "GCTTGCA") 4 "A"%char)
  = List.length (chars "GCTTGCA")
  /\ nth_error (replace_base_at_index (chars "GCTTGCA") 4 "A"%char) (Z.to_nat 4)
     = Some "A"%char
  /\ forall j, j <> Z.to_nat 4 ->
       nth_error (replace_base_at_index (chars "GCTTGCA") 4 "A"%char) j
       = nth_error (chars "GCTTGCA") j.
Proof.
  apply (replace_inside (chars "GCTTGCA") 4 "A"%char). simpl. lia.
Defined.

(** X23: for an index at or past the end of the read
    replace_base_at_index raises nothing and replaces nothing: both slices
    are clipped and the base is appended to the read. *)
Theorem replace_past_the_end (read_sequence : str) (idx : Z) (base : ascii) :
  Z.of_nat (List.length read_sequence) <= idx ->
  replace_base_at_index read_sequence idx base = read_sequence ++ [base].
Proof.
  intros Hidx. unfold replace_base_at_index, slice_to, slice_from, clip.
  destruct (Z.ltb_spec idx 0); [lia |].
  destruct (Z.ltb_spec (idx + 1) 0); [lia |].
  rewrite firstn_all2 by lia. rewrite skipn_all2 by lia. reflexivity.
Qed.

Lemma replace_past_the_end_witness :
  replace_base_at_index (chars "ACG") 3 "T"%char = chars "ACG" ++ ["T"%char].
Proof.
  apply (replace_past_the_end (chars "ACG") 3 "T"%char). simpl. lia.
Defined.

(** X24: a negative index counts from the end only up to -2: for
    [-len <= idx <= -2] replace_base_at_index replaces symbol [len + idx],
    but for [idx = -1] the slice [read_sequence[idx + 1:]] is the whole
    read, and the result is the read without its last symbol, the base,
    and then the whole read again. *)
Theorem replace_negative_index (read_sequence : str) (base : ascii) :
  (forall idx,
     - Z.of_nat (List.length read_sequence) <= idx <= -2 ->
     replace_base_at_index read_sequence idx base
     = replace_base_at_index read_sequence
         (Z.of_nat (List.length read_sequence) + idx) base)
  /\ replace_base_at_index read_sequence (-1) base
     = firstn (List.length read_sequence - 1) read_sequence
       ++ base :: read_sequence.
Proof.
  split.
  - intros idx Hidx. unfold replace_base_at_index, slice_to, slice_from, clip.
    destruct (Z.ltb_spec idx 0); [| lia].
    destruct (Z.ltb_spec (idx + 1) 0); [| lia].
    destruct (Z.ltb_spec (Z.of_nat (List.length read_sequence) + idx) 0); [lia |].
    destruct (Z.ltb_spec (Z.of_nat (List.length read_sequence) + idx + 1) 0);
      [lia |].
    replace (Nat.min (List.length read_sequence)
               (Z.to_nat (Z.of_nat (List.length read_sequence) + idx)))
      with (Z.to_nat (Z.of_nat (List.length read_sequence) + idx)) by lia.
    replace (Nat.min (List.length read_sequence)
               (Z.to_nat (Z.of_nat (List.length read_sequence) + idx + 1)))
      with (Z.to_nat (Z.of_nat (List.length read_sequence) + (idx + 1))) by lia.
    reflexivity.
  - unfold replace_base_at_index, slice_to, slice_from, clip. simpl.
    rewrite Nat.min_0_r. simpl.
    replace (Z.to_nat (Z.of_nat (List.length read_sequence) + -1))
      with (List.length read_sequence - 1)%nat by lia.
    reflexivity.
Qed.

Lemma replace_negative_index_witness :
  replace_base_at_index (chars "ACGT") (-3) "G"%char
  = replace_base_at_index (chars "ACGT") 1 "G"%char
  /\ replace_base_at_index (chars "ACGT") (-1) "G"%char
     = chars "ACGGACGT".
Proof.
  destruct (replace_negative_index (chars "ACGT") "G"%char) as [Hinner Hlast].
  split.
  - apply (Hinner (-3)). simpl. lia.
  - exact Hlast.
Defined.

End FilterProperties.
